(** * LLDP topology generator: model of [generate_topology.py]

    The development embeds the pure core of the script
    (interface-name normalizer, collection-result normalizer, topology
    extractor, topology builder and diff engine) and states its properties.

    Conventions of the embedding:
    - Python [str] is [string]; truthiness of a string is non-emptiness;
    - an insertion-ordered [dict] that the script iterates over is an
      association list ([Dict.t]); a [dict] that is only looked up is a
      [gmap]; the host [set] is a [gset string], and a loop over it runs
      over an arbitrary enumeration of its elements;
    - an uncaught Python exception is the [Err] branch of [result]. *)

From stdpp Require Import base list strings gmap.
From Stdlib Require Import Ascii.

(** ** Python string primitives *)

Module PyStr.

(** [s.startswith(p)] *)
Fixpoint startswith (s p : string) {struct p} : bool :=
  match p with
  | EmptyString => true
  | String a p' =>
      match s with
      | EmptyString => false
      | String b s' => if Ascii.eqb a b then startswith s' p' else false
      end
  end.

(** Scan of [str.replace] for a non-empty [old]: left to right, every
    non-overlapping occurrence of [old] becomes [new].  [skip] counts the
    characters of a matched occurrence that are still to be consumed. *)
Fixpoint replace_from (old new s : string) (skip : nat) : string :=
  match s with
  | EmptyString => EmptyString
  | String c s' =>
      match skip with
      | S n => replace_from old new s' n
      | O =>
          if startswith s old
          then new +:+ replace_from old new s' (String.length old - 1)
          else String c (replace_from old new s' 0)
      end
  end.

(** [str.replace] with an empty [old] puts [new] around every character. *)
Fixpoint interleave (new s : string) : string :=
  match s with
  | EmptyString => new
  | String c s' => new +:+ String c (interleave new s')
  end.

(** [s.replace(old, new)] *)
Definition replace (s old new : string) : string :=
  match old with
  | EmptyString => interleave new s
  | String _ _ => replace_from old new s 0
  end.

(** [c in s] for a character *)
Fixpoint occurs (c : ascii) (s : string) : bool :=
  match s with
  | EmptyString => false
  | String b s' => Ascii.eqb c b || occurs c s'
  end.

(** [not s] *)
Definition falsy (s : string) : bool :=
  match s with EmptyString => true | String _ _ => false end.

End PyStr.

(** ** Interface-name normalizer *)

(** [interface_full_name_map], in the insertion order of the literal. *)
Definition interface_full_name_map : list (string * string) :=
  [ ("Eth", "Ethernet");
    ("Fa", "FastEthernet");
    ("Gi", "GigabitEthernet");
    ("Te", "TenGigabitEthernet") ].

Fixpoint if_fullname_loop (items : list (string * string)) (ifname : string)
  : string :=
  match items with
  | [] => ifname
  | (k, v) :: rest =>
      if PyStr.startswith ifname v then ifname
      else if PyStr.startswith ifname k then PyStr.replace ifname k v
      else if_fullname_loop rest ifname
  end.

Definition if_fullname (ifname : string) : string :=
  if_fullname_loop interface_full_name_map ifname.

Fixpoint if_shortname_loop (items : list (string * string)) (ifname : string)
  : string :=
  match items with
  | [] => ifname
  | (k, v) :: rest =>
      if PyStr.startswith ifname v then PyStr.replace ifname v k
      else if_shortname_loop rest ifname
  end.

Definition if_shortname (ifname : string) : string :=
  if_shortname_loop interface_full_name_map ifname.

(** ** Exceptions and dictionaries *)

(** The two exceptions the core can raise. *)
Inductive py_error := IndexError | KeyError.

Inductive result (A : Type) :=
  | Ok (a : A)
  | Err (e : py_error).
Arguments Ok {A} a.
Arguments Err {A} e.

#[global] Instance result_ret : MRet result := λ A a, Ok a.
#[global] Instance result_bind : MBind result :=
  λ A B f m, match m with Ok a => f a | Err e => Err e end.

(** A [for] loop whose body may raise. *)
Fixpoint foldM {S A : Type} (f : S → A → result S) (s : S) (l : list A)
  : result S :=
  match l with
  | [] => Ok s
  | x :: l' => s' ← f s x; foldM f s' l'
  end.

(** [l[0]] *)
Definition index0 {A : Type} (l : list A) : result A :=
  match l with
  | [] => Err IndexError
  | x :: _ => Ok x
  end.

(** Insertion-ordered dictionaries with string keys: [d[k] = v] keeps the
    position of a key that is already bound and appends a new one. *)
Module Dict.

Definition t (V : Type) : Type := list (string * V).

Fixpoint get {V : Type} (d : t V) (k : string) : option V :=
  match d with
  | [] => None
  | (k', v) :: d' => if decide (k' = k) then Some v else get d' k
  end.

Fixpoint set {V : Type} (d : t V) (k : string) (v : V) : t V :=
  match d with
  | [] => [(k, v)]
  | (k', v') :: d' =>
      if decide (k' = k) then (k', v) :: d' else (k', v') :: set d' k v
  end.

End Dict.

(** ** Data model *)

(** One LLDP neighbor record of the poller. *)
Record NeighborRecord := {
  remote_system_name : string;
  remote_port : string;
  remote_system_enable_capab : list string
}.

Module Facts.
(** The fields of the [facts] getter that the script reads; [model] and
    [serial_number] are read with [.get(_, 'n/a')]. *)
Record t := {
  fqdn : string;
  hostname : string;
  model : option string;
  serial_number : option string
}.
End Facts.

(** [lldp_neighbors_detail]: local interface name to neighbor records. *)
Abbreviation LldpDetailDict := (Dict.t (list NeighborRecord)).

(** The per-device result: [output[0].failed], or the sub-task result
    [output[1].result] with its two getters. *)
Inductive PollOutcome :=
  | Failed
  | Polled (facts : Facts.t) (lldp_neighbors_detail : LldpDetailDict).

(** Values of [global_facts]: the empty list of a failed device or a facts
    dictionary. *)
Inductive FactsEntry :=
  | FactsEmptyList
  | FactsOf (f : Facts.t).

(** Values of [global_lldp_data]. *)
Inductive LldpEntry :=
  | LldpEmptyList
  | LldpDetail (d : LldpDetailDict).

(** [not lldp_data]: the empty list and the empty dictionary are falsy. *)
Definition lldp_falsy (e : LldpEntry) : bool :=
  match e with
  | LldpEmptyList => true
  | LldpDetail [] => true
  | LldpDetail (_ :: _) => false
  end.

(** [lldp_data.items()] *)
Definition lldp_items (e : LldpEntry) : list (string * list NeighborRecord) :=
  match e with
  | LldpEmptyList => []
  | LldpDetail d => d
  end.

(** A link end [(device, interface)] and a link [(local_end, remote_end)]. *)
Abbreviation Endpoint := (string * string)%type.
Abbreviation RawLink := ((string * string) * (string * string))%type.

Module Node.
Record t := {
  id : nat;
  name : string;
  model : string;
  serial_number : string;
  icon : string
}.
End Node.

Module Link.
Record t := {
  id : nat;
  source : nat;
  target : nat;
  srcIfName : string;
  srcDevice : string;
  tgtIfName : string;
  tgtDevice : string
}.
End Link.

(** [topology_dict] *)
Record Topology := {
  nodes : list Node.t;
  links : list Link.t
}.

(** ** Icon classification *)

Definition icon_type_map : gmap string string :=
  list_to_map
    [ ("router", "router");
      ("switch", "switch");
      ("bridge", "switch");
      ("station", "host") ].

Definition get_icon_type (device_cap_name : string) : string :=
  default "unknown" (icon_type_map !! device_cap_name).

(** ** Collection-result normalizer *)

(** The identity a successfully polled device is stored under. *)
Definition device_identity (device : string) (facts : Facts.t) : string :=
  let device_fqdn := Facts.fqdn facts in
  let device_fqdn :=
    if PyStr.falsy device_fqdn then Facts.hostname facts else device_fqdn in
  let device_fqdn :=
    if PyStr.falsy device_fqdn then device else device_fqdn in
  device_fqdn.

(** One iteration of the loop of [normalize_result] over
    [(global_lldp_data, global_facts)]. *)
Definition normalize_step
    (acc : Dict.t LldpEntry * Dict.t FactsEntry)
    (item : string * PollOutcome)
  : Dict.t LldpEntry * Dict.t FactsEntry :=
  let '(global_lldp_data, global_facts) := acc in
  let '(device, output) := item in
  match output with
  | Failed =>
      (Dict.set global_lldp_data device LldpEmptyList,
       Dict.set global_facts device FactsEmptyList)
  | Polled facts lldp =>
      let device_fqdn := device_identity device facts in
      (Dict.set global_lldp_data device_fqdn (LldpDetail lldp),
       Dict.set global_facts device_fqdn (FactsOf facts))
  end.

Definition normalize_result (nornir_job_result : Dict.t PollOutcome)
  : Dict.t LldpEntry * Dict.t FactsEntry :=
  fold_left normalize_step nornir_job_result ([], []).

(** The key one poll result is written under by its loop iteration. *)
Definition stored_key (item : string * PollOutcome) : string :=
  match item.2 with
  | Failed => item.1
  | Polled facts _ => device_identity item.1 facts
  end.

(** ** Topology extractor *)

(** The three accumulators of [extract_lldp_details]. *)
Record ExtractState := {
  discovered_hosts : gset string;
  lldp_capabilities_dict : gmap string string;
  global_interconnections : list RawLink
}.

Definition extract_init : ExtractState :=
  {| discovered_hosts := ∅;
     lldp_capabilities_dict := ∅;
     global_interconnections := [] |}.

(** Body of [for neighbor in neighbors]. *)
Definition neighbor_step (host interface : string)
    (st : ExtractState) (neighbor : NeighborRecord) : result ExtractState :=
  if PyStr.falsy (remote_system_name neighbor) then Ok st
  else
    let hosts := {[ remote_system_name neighbor ]} ∪ discovered_hosts st in
    cap ← index0 (remote_system_enable_capab neighbor);
    let caps :=
      <[ remote_system_name neighbor := cap ]> (lldp_capabilities_dict st) in
    let local_end := (host, interface) in
    let remote_end :=
      (remote_system_name neighbor, if_fullname (remote_port neighbor)) in
    let link_is_already_there :=
      bool_decide ((local_end, remote_end) ∈ global_interconnections st)
      || bool_decide ((remote_end, local_end) ∈ global_interconnections st) in
    if link_is_already_there
    then Ok {| discovered_hosts := hosts;
               lldp_capabilities_dict := caps;
               global_interconnections := global_interconnections st |}
    else Ok {| discovered_hosts := hosts;
               lldp_capabilities_dict := caps;
               global_interconnections :=
                 global_interconnections st ++ [(local_end, remote_end)] |}.

(** Body of [for interface, neighbors in lldp_data.items()]. *)
Definition interface_step (host : string)
    (st : ExtractState) (item : string * list NeighborRecord)
  : result ExtractState :=
  foldM (neighbor_step host item.1) st item.2.

(** Body of [for host, lldp_data in lldp_data_dict.items()]. *)
Definition host_step (st : ExtractState) (item : string * LldpEntry)
  : result ExtractState :=
  let '(host, lldp_data) := item in
  if PyStr.falsy host then Ok st
  else
    let st :=
      {| discovered_hosts := {[ host ]} ∪ discovered_hosts st;
         lldp_capabilities_dict := lldp_capabilities_dict st;
         global_interconnections := global_interconnections st |} in
    if lldp_falsy lldp_data then Ok st
    else foldM (interface_step host) st (lldp_items lldp_data).

Definition extract_lldp_details (lldp_data_dict : Dict.t LldpEntry)
  : result (gset string * list RawLink * gmap string string) :=
  st ← foldM host_step extract_init lldp_data_dict;
  mret (discovered_hosts st,
        global_interconnections st,
        lldp_capabilities_dict st).

(** The link list of an extractor result. *)
Definition links_of
    (r : result (gset string * list RawLink * gmap string string))
  : result (list RawLink) :=
  out ← r; mret out.1.2.

(** The tuple appended for a neighbor record seen on [interface] of [host]. *)
Definition candidate (host interface : string) (neighbor : NeighborRecord)
  : RawLink :=
  ((host, interface),
   (remote_system_name neighbor, if_fullname (remote_port neighbor))).

(** [neighbor] is a record with a non-empty system name, listed under
    [interface] of the non-empty key [host] of [lldp_data_dict]: the records
    the innermost loop body does not skip. *)
Definition reported (lldp_data_dict : Dict.t LldpEntry)
    (host interface : string) (neighbor : NeighborRecord) : Prop :=
  host ≠ EmptyString ∧ remote_system_name neighbor ≠ EmptyString
  ∧ ∃ d neighbors,
      (host, LldpDetail d) ∈ lldp_data_dict
      ∧ (interface, neighbors) ∈ d
      ∧ neighbor ∈ neighbors.

(** A link tuple with both interface names put in long form. *)
Definition long_form_link (l : RawLink) : RawLink :=
  ((l.1.1, if_fullname l.1.2), (l.2.1, if_fullname l.2.2)).

(** ** Topology builder *)

Definition make_node (lldp_capabilities_dict : gmap string string)
    (facts : Dict.t FactsEntry) (host_id : nat) (host : string) : Node.t :=
  let '(device_model, device_serial) :=
    match Dict.get facts host with
    | Some (FactsOf f) =>
        (default "n/a" (Facts.model f), default "n/a" (Facts.serial_number f))
    | _ => ("n/a", "n/a")
    end in
  {| Node.id := host_id;
     Node.name := host;
     Node.model := device_model;
     Node.serial_number := device_serial;
     Node.icon :=
       get_icon_type (default EmptyString (lldp_capabilities_dict !! host)) |}.

(** Body of [for host in discovered_hosts], over
    [(host_id, host_id_map, topology_dict['nodes'])]. *)
Definition node_step (lldp_capabilities_dict : gmap string string)
    (facts : Dict.t FactsEntry)
    (acc : nat * gmap string nat * list Node.t) (host : string)
  : nat * gmap string nat * list Node.t :=
  let '(host_id, host_id_map, nodes) := acc in
  (S host_id,
   <[ host := host_id ]> host_id_map,
   nodes ++ [make_node lldp_capabilities_dict facts host_id host]).

(** [host_id_map[k]] *)
Definition host_id_lookup (host_id_map : gmap string nat) (k : string)
  : result nat :=
  match host_id_map !! k with
  | Some i => Ok i
  | None => Err KeyError
  end.

(** The dictionary appended for one link. *)
Definition make_link (link_id source target : nat) (link : RawLink) : Link.t :=
  {| Link.id := link_id;
     Link.source := source;
     Link.target := target;
     Link.srcIfName := if_shortname link.1.2;
     Link.srcDevice := link.1.1;
     Link.tgtIfName := if_shortname link.2.2;
     Link.tgtDevice := link.2.1 |}.

(** Body of [for link in interconnections], over
    [(link_id, topology_dict['links'])]. *)
Definition link_step (host_id_map : gmap string nat)
    (acc : nat * list Link.t) (link : RawLink) : result (nat * list Link.t) :=
  let '(link_id, links) := acc in
  source ← host_id_lookup host_id_map link.1.1;
  target ← host_id_lookup host_id_map link.2.1;
  mret (S link_id, links ++ [make_link link_id source target link]).

(** [generate_topology_json]; [discovered_hosts] is the host set in the
    order in which the [for] loop enumerates it. *)
Definition generate_topology_json
    (discovered_hosts : list string) (interconnections : list RawLink)
    (lldp_capabilities_dict : gmap string string) (facts : Dict.t FactsEntry)
  : result Topology :=
  let '(_, host_id_map, nodes) :=
    fold_left (node_step lldp_capabilities_dict facts)
              discovered_hosts (0, ∅, []) in
  '(_, links) ← foldM (link_step host_id_map) (0, []) interconnections;
  mret {| nodes := nodes; links := links |}.

(** ** Diff engine *)

(** The tuple [((srcDevice, srcIfName), (tgtDevice, tgtIfName))]. *)
Definition link_key (x : Link.t) : RawLink :=
  ((Link.srcDevice x, Link.srcIfName x), (Link.tgtDevice x, Link.tgtIfName x)).

(** [{'added': [...], 'deleted': [...]}] *)
Record Diff (A : Type) := {
  added : list A;
  deleted : list A
}.
Arguments added {A} _.
Arguments deleted {A} _.

(** [get_topology_diff]; the one-element tuple [(name,)] of a node is its
    name. *)
Definition get_topology_diff (cached current : Topology)
  : Diff string * Diff RawLink :=
  let cached_links := link_key <$> links cached in
  let cached_nodes := Node.name <$> nodes cached in
  let links := link_key <$> links current in
  let nodes := Node.name <$> nodes current in
  let diff_nodes :=
    {| added := filter (λ node, node ∉ cached_nodes) nodes;
       deleted := filter (λ cached_node, cached_node ∉ nodes) cached_nodes |} in
  let diff_links :=
    {| added :=
         filter (λ l, (l ∉ cached_links) ∧ (prod_swap l ∉ cached_links)) links;
       deleted :=
         filter (λ l, (l ∉ links) ∧ (prod_swap l ∉ links)) cached_links |} in
  (diff_nodes, diff_links).

(** ** Links as unordered endpoint pairs *)

(** Two link tuples denote the same link when they agree in one of the two
    endpoint orders. *)
Definition same_link (a b : RawLink) : Prop := a = b ∨ a = prod_swap b.

(** Membership of a link in a list, up to endpoint order. *)
Definition has_link (ls : list RawLink) (l : RawLink) : Prop :=
  l ∈ ls ∨ prod_swap l ∈ ls.

#[global] Instance same_link_dec a b : Decision (same_link a b).
Proof. unfold same_link. apply _. Defined.

#[global] Instance has_link_dec ls l : Decision (has_link ls l).
Proof. unfold has_link. apply _. Defined.

(** A link list without two entries for one unordered endpoint pair. *)
Inductive NoSymDup : list RawLink → Prop :=
  | NoSymDup_nil : NoSymDup []
  | NoSymDup_cons c ls : ¬ has_link ls c → NoSymDup ls → NoSymDup (c :: ls).

(** What the extractor maintains about its accumulators; [Rep] tells which
    neighbor records the loops run over. *)
Record extract_inv (Rep : string → string → NeighborRecord → Prop)
    (st : ExtractState) : Prop := {
  inv_links_from :
    ∀ l, l ∈ global_interconnections st →
         ∃ host interface neighbor,
           Rep host interface neighbor ∧ l = candidate host interface neighbor;
  inv_ends_in_hosts :
    ∀ l, l ∈ global_interconnections st →
         l.1.1 ∈ discovered_hosts st ∧ l.2.1 ∈ discovered_hosts st;
  inv_caps_from :
    ∀ k c, lldp_capabilities_dict st !! k = Some c →
           ∃ host interface neighbor,
             Rep host interface neighbor
             ∧ remote_system_name neighbor = k
             ∧ head (remote_system_enable_capab neighbor) = Some c;
  inv_no_sym_dup : NoSymDup (global_interconnections st)
}.

(** The accumulators only grow. *)
Definition grows (st st' : ExtractState) : Prop :=
  global_interconnections st ⊆ global_interconnections st'
  ∧ discovered_hosts st ⊆ discovered_hosts st'
  ∧ dom (lldp_capabilities_dict st) ⊆ dom (lldp_capabilities_dict st').

(** ** Sample LLDP data *)

Definition neighbor (name port : string) (codes : list string)
  : NeighborRecord :=
  {| remote_system_name := name;
     remote_port := port;
     remote_system_enable_capab := codes |}.

(** Two devices that see each other and report their local interfaces in
    long form. *)
Definition lldp_pair_long : Dict.t LldpEntry :=
  [ ("A", LldpDetail [("GigabitEthernet0/1", [neighbor "B" "Gi0/2" ["switch"]])]);
    ("B", LldpDetail [("GigabitEthernet0/2", [neighbor "A" "Gi0/1" ["router"]])]) ].

(** The same adjacency with the local interfaces reported abbreviated. *)
Definition lldp_pair_short : Dict.t LldpEntry :=
  [ ("A", LldpDetail [("Gi0/1", [neighbor "B" "Gi0/2" ["switch"]])]);
    ("B", LldpDetail [("Gi0/2", [neighbor "A" "Gi0/1" ["router"]])]) ].

(** One device whose neighbor advertises no capability at all. *)
Definition lldp_no_capability : Dict.t LldpEntry :=
  [ ("A", LldpDetail [("Gi0/1", [neighbor "B" "Gi0/2" []])]) ].

(** ** Console report *)

(** Truthiness of a list: [if l]. *)
Definition truthy {A : Type} (l : list A) : bool :=
  match l with
  | [] => false
  | _ :: _ => true
  end.

(** [f'Имя устройства: {node[0]}'] *)
Definition node_line (node : string) : string :=
  "Имя устройства: " +:+ node.

(** [f'От {src[0]}({src[1]}) к {dst[0]}({dst[1]})'] *)
Definition link_line (l : RawLink) : string :=
  "От " +:+ l.1.1 +:+ "(" +:+ l.1.2 +:+ ") к "
  +:+ l.2.1 +:+ "(" +:+ l.2.2 +:+ ")".

(** One [if diff[...]:] block of [print_diff]: an empty line, the upper
    bar, the title, the lower bar and one line per entry; nothing for an
    empty list. *)
Definition report_block {A : Type}
    (bar_up title bar_down : string) (line : A → string) (entries : list A)
  : list string :=
  if truthy entries
  then [EmptyString; bar_up; title; bar_down] ++ (line <$> entries)
  else [].

(** The number of lines of one block. *)
Definition block_size {A : Type} (entries : list A) : nat :=
  if truthy entries then 4 + length entries else 0.

(** [print_diff]: the lines it prints, in order. *)
Definition print_diff (diff : Diff string * Diff RawLink) : list string :=
  let '(diff_nodes, diff_links) := diff in
  if negb (truthy (added diff_nodes) || truthy (deleted diff_nodes)
           || truthy (added diff_links) || truthy (deleted diff_links))
  then ["Изменений в топологии не обнаружено."]
  else
    ["Обнаружены изменения в топологии:"]
    ++ report_block "^^^^^^^^^^^^^^^^^^^^^^^^^^^^^"
                    "Новые сетевые устройства:"
                    "vvvvvvvvvvvvvvvvvvvvvvvvvvvvv"
                    node_line (added diff_nodes)
    ++ report_block "^^^^^^^^^^^^^^^^^^^^^^^^^^^^^"
                    "Удаленные сетевые устройства:"
                    "vvvvvvvvvvvvvvvvvvvvvvvvvvvvv"
                    node_line (deleted diff_nodes)
    ++ report_block "^^^^^^^^^^^^^^^^^^^^^^^^^^^^^^^^^^^^"
                    "Новые соединения между устройствами:"
                    "vvvvvvvvvvvvvvvvvvvvvvvvvvvvvvvvvvvv"
                    link_line (added diff_links)
    ++ report_block "^^^^^^^^^^^^^^^^^^^^^^^^^^^^^^^^^^^^"
                    "Удаленные соединения между устройствами:"
                    "vvvvvvvvvvvvvvvvvvvvvvvvvvvvvvvvvvvv"
                    link_line (deleted diff_links)
    ++ [EmptyString].

(** ** The run *)

(** [good_luck_have_fun] without its file writes.  [enumerate] is the order
    in which the host set is iterated; [get_host_data_result] is what
    [nr.run] returned; [cached] is the result of [read_cached_topology]:
    [None] for the empty dictionary (no file, not a file, unparsable), and
    a topology for a cache written by an earlier run.  The result is the
    topology handed to both writers and the lines printed. *)
Definition good_luck_have_fun
    (enumerate : gset string → list string)
    (get_host_data_result : Dict.t PollOutcome) (cached : option Topology)
  : result (Topology * list string) :=
  let '(GLOBAL_LLDP_DATA, GLOBAL_FACTS) :=
    normalize_result get_host_data_result in
  TOPOLOGY_DETAILS ← extract_lldp_details GLOBAL_LLDP_DATA;
  let '(hosts, interconnections, capabilities) := TOPOLOGY_DETAILS in
  TOPOLOGY_DICT ←
    generate_topology_json (enumerate hosts) interconnections capabilities
                           GLOBAL_FACTS;
  let report :=
    match cached with
    | Some CACHED_TOPOLOGY =>
        print_diff (get_topology_diff CACHED_TOPOLOGY TOPOLOGY_DICT)
    | None => []
    end in
  mret (TOPOLOGY_DICT,
        report ++ ["Для просмотра топологии откройте файл main.html"]).

(** ** The extractor as folds over the neighbor records *)

(** The neighbor records the innermost loop body does not skip, with the
    host and interface they are listed under, in iteration order. *)
Definition host_records (item : string * LldpEntry)
  : list (string * string * NeighborRecord) :=
  if PyStr.falsy item.1 then []
  else
    entry ← lldp_items item.2;
    (λ nb, (item.1, entry.1, nb))
      <$> filter (λ nb, remote_system_name nb ≠ EmptyString) entry.2.

Definition neighbor_records (lldp_data_dict : Dict.t LldpEntry)
  : list (string * string * NeighborRecord) :=
  lldp_data_dict ≫= host_records.

(** The candidate of a record. *)
Definition record_candidate (r : string * string * NeighborRecord) : RawLink :=
  candidate r.1.1 r.1.2 r.2.

(** What one record does to the link list. *)
Definition record_link (ls : list RawLink)
    (r : string * string * NeighborRecord) : list RawLink :=
  if decide (has_link ls (record_candidate r)) then ls
  else ls ++ [record_candidate r].

(** What one record does to the capability dictionary when its capability
    list is not empty. *)
Definition record_cap (caps : gmap string string)
    (r : string * string * NeighborRecord) : gmap string string :=
  match remote_system_enable_capab r.2 with
  | [] => caps
  | cap :: _ => <[ remote_system_name r.2 := cap ]> caps
  end.

(** The values [normalize_result] stores for one poll result. *)
Definition stored_lldp (o : PollOutcome) : LldpEntry :=
  match o with
  | Failed => LldpEmptyList
  | Polled _ lldp => LldpDetail lldp
  end.

Definition stored_facts (o : PollOutcome) : FactsEntry :=
  match o with
  | Failed => FactsEmptyList
  | Polled facts _ => FactsOf facts
  end.

(** The system name a record reports. *)
Definition record_name (r : string * string * NeighborRecord) : string :=
  remote_system_name r.2.

(** The three accumulators after running the records [rs] from [st]. *)
Definition folds_from (st : ExtractState)
    (rs : list (string * string * NeighborRecord)) (st' : ExtractState)
  : Prop :=
  global_interconnections st'
  = fold_left record_link rs (global_interconnections st)
  ∧ lldp_capabilities_dict st'
    = fold_left record_cap rs (lldp_capabilities_dict st)
  ∧ discovered_hosts st'
    = discovered_hosts st ∪ list_to_set (record_name <$> rs).

(** The non-empty keys of [lldp_data_dict]. *)
Definition host_keys (lldp_data_dict : Dict.t LldpEntry) : list string :=
  filter (λ k, k ≠ EmptyString) lldp_data_dict.*1.

(** A link tuple as the builder renders it: interface names in short form. *)
Definition short_form_link (l : RawLink) : RawLink :=
  ((l.1.1, if_shortname l.1.2), (l.2.1, if_shortname l.2.2)).

(** ** Facts about the string primitives *)

Section StringFacts.

Import PyStr.

Lemma append_nil_l s : EmptyString +:+ s = s.
Proof. reflexivity. Qed.

Lemma append_cons a p q : String a p +:+ q = String a (p +:+ q).
Proof. reflexivity. Qed.

Lemma append_assoc p q r : (p +:+ q) +:+ r = p +:+ q +:+ r.
Proof.
  induction p as [|a p IH]; [done|]. by rewrite !append_cons, IH.
Qed.

Lemma length_append p q :
  String.length (p +:+ q) = String.length p + String.length q.
Proof.
  induction p as [|a p IH]; [done|]. rewrite append_cons. simpl. by rewrite IH.
Qed.

Lemma startswith_app s p :
  startswith s p = true ↔ ∃ r, s = p +:+ r.
Proof.
  revert s. induction p as [|a p IH]; intros s; simpl.
  - split; [intros _; by exists s | done].
  - destruct s as [|b s].
    + split; [done | intros [r Hr]; discriminate].
    + destruct (Ascii.eqb a b) eqn:Hab.
      * apply Ascii.eqb_eq in Hab as ->. rewrite IH. split.
        -- intros [r ->]. by exists r.
        -- intros [r Hr]. rewrite append_cons in Hr.
           injection Hr as ->. by exists r.
      * apply Ascii.eqb_neq in Hab. split; [done|].
        intros [r Hr]. rewrite append_cons in Hr.
        injection Hr as Hb _. congruence.
Qed.

Lemma startswith_prepend p r : startswith (p +:+ r) p = true.
Proof. apply startswith_app. by exists r. Qed.

Lemma startswith_weaken s p q :
  startswith s (p +:+ q) = true → startswith s p = true.
Proof.
  rewrite !startswith_app. intros [r ->].
  exists (q +:+ r). apply append_assoc.
Qed.

Lemma replace_from_skip old new p r :
  replace_from old new (p +:+ r) (String.length p) = replace_from old new r 0.
Proof.
  induction p as [|a p IH]; [by destruct r|].
  rewrite append_cons. simpl. apply IH.
Qed.

Lemma replace_from_hit a old' new r :
  replace_from (String a old') new (String a old' +:+ r) 0
  = new +:+ replace_from (String a old') new r 0.
Proof.
  rewrite append_cons. cbn [replace_from].
  rewrite <- append_cons, startswith_prepend. cbn [String.length].
  by rewrite Nat.sub_1_r, Nat.pred_succ, replace_from_skip.
Qed.

Lemma replace_from_miss old new c s :
  startswith (String c s) old = false →
  replace_from old new (String c s) 0 = String c (replace_from old new s 0).
Proof. intros H. cbn [replace_from]. by rewrite H. Qed.

End StringFacts.

(** ** Replacing a prefix-like pattern and replacing it back *)

Section ReplaceRoundTrip.

Import PyStr.

(** The short form [k] starts with a character that occurs nowhere else in
    it, and the long form [v] extends [k]. *)
Variables (c0 : ascii) (kt w : string).
Hypothesis c0_fresh : occurs c0 kt = false.

Let k : string := String c0 kt.
Let v : string := String c0 (kt +:+ w).

Lemma long_extends_short : v = k +:+ w.
Proof. reflexivity. Qed.

Lemma expand_preserves_tail p s :
  occurs c0 p = false →
  startswith (replace_from k v s 0) p = true →
  startswith s p = true.
Proof.
  revert s. induction p as [|d p IH]; intros s Hp Hs; [done|].
  simpl in Hp. apply orb_false_iff in Hp as [Hd Hp].
  destruct s as [|c s]; [done|].
  destruct (startswith (String c s) k) eqn:Hk.
  - apply startswith_app in Hk as [r Hr]. rewrite Hr in Hs.
    unfold k in Hs. rewrite replace_from_hit in Hs.
    unfold v in Hs. rewrite append_cons in Hs. simpl in Hs.
    rewrite Ascii.eqb_sym, Hd in Hs. done.
  - rewrite replace_from_miss in Hs by done. simpl in Hs. simpl.
    destruct (Ascii.eqb d c); [|done]. by apply IH.
Qed.

Lemma expand_keeps_miss c s :
  startswith (String c s) k = false →
  startswith (String c (replace_from k v s 0)) v = false.
Proof.
  intros Hk. destruct (startswith (String c (replace_from k v s 0)) v) eqn:Hv;
    [|done].
  rewrite long_extends_short in Hv. apply startswith_weaken in Hv.
  unfold k in Hv, Hk. simpl in Hv, Hk.
  destruct (Ascii.eqb c0 c); [|done].
  apply expand_preserves_tail in Hv; [congruence | done].
Qed.

Lemma replace_round_trip_len n s :
  String.length s ≤ n →
  replace_from v k (replace_from k v s 0) 0 = s.
Proof.
  revert s. induction n as [|n IH]; intros s Hn.
  - destruct s; [done | simpl in Hn; lia].
  - destruct s as [|c s]; [done|].
    destruct (startswith (String c s) k) eqn:Hk.
    + apply startswith_app in Hk as [r Hr]. rewrite Hr.
      unfold k at 2 3. rewrite replace_from_hit.
      unfold v at 1 3. rewrite replace_from_hit. fold k v.
      rewrite IH; [done|].
      apply (f_equal String.length) in Hr. rewrite length_append in Hr.
      unfold k in Hr. simpl in Hr, Hn. lia.
    + rewrite replace_from_miss by done.
      rewrite replace_from_miss by by apply expand_keeps_miss.
      rewrite IH; [done|]. simpl in Hn. lia.
Qed.

Lemma replace_round_trip s :
  replace (replace s k v) v k = s.
Proof. by apply (replace_round_trip_len (String.length s)). Qed.

Lemma shrink_length_len n s :
  String.length s ≤ n →
  String.length (replace_from v k s 0) ≤ String.length s.
Proof.
  revert s. induction n as [|n IH]; intros s Hn.
  - destruct s; [done | simpl in Hn; lia].
  - destruct s as [|c s]; [done|].
    destruct (startswith (String c s) v) eqn:Hv.
    + apply startswith_app in Hv as [r Hr]. rewrite Hr.
      unfold v at 1 2. rewrite replace_from_hit. fold v.
      apply (f_equal String.length) in Hr.
      rewrite !length_append in *. unfold v, k in *.
      simpl in *. rewrite length_append in *.
      specialize (IH r). lia.
    + rewrite replace_from_miss by done. simpl in *.
      specialize (IH s). lia.
Qed.

Lemma shrink_changes r :
  w ≠ EmptyString → replace (v +:+ r) v k ≠ v +:+ r.
Proof.
  intros Hw Heq. apply (f_equal String.length) in Heq.
  unfold replace, v at 2 in Heq. unfold v at 1 2 in Heq.
  rewrite replace_from_hit in Heq. fold v in Heq.
  pose proof (shrink_length_len _ r (le_n _)) as Hle.
  rewrite !length_append in Heq. unfold v, k in Heq, Hle. simpl in Heq.
  rewrite length_append in Heq. destruct w; [done|]. simpl in Heq. lia.
Qed.

End ReplaceRoundTrip.

(** ** The normalizer on the abbreviation table *)

Section Normalizer.

Import PyStr.

Lemma table_entries k v :
  (k, v) ∈ interface_full_name_map →
  (k, v) = ("Eth", "Ethernet") ∨ (k, v) = ("Fa", "FastEthernet")
  ∨ (k, v) = ("Gi", "GigabitEthernet")
  ∨ (k, v) = ("Te", "TenGigabitEthernet").
Proof.
  unfold interface_full_name_map. rewrite !elem_of_cons, elem_of_nil. tauto.
Qed.

(** Every entry has the shape the round-trip section asks for. *)
Lemma table_shape k v :
  (k, v) ∈ interface_full_name_map →
  ∃ c0 kt w, k = String c0 kt ∧ v = String c0 (kt +:+ w)
             ∧ occurs c0 kt = false ∧ w ≠ EmptyString.
Proof.
  intros H. apply table_entries in H as [H|[H|[H|H]]]; simplify_eq.
  - by exists "E"%char, "th", "ernet".
  - by exists "F"%char, "a", "stEthernet".
  - by exists "G"%char, "i", "gabitEthernet".
  - by exists "T"%char, "e", "nGigabitEthernet".
Qed.

Ltac eval_startswith H :=
  repeat match goal with
    | |- context [startswith ?s ?p] =>
        first [ change (startswith s p) with false
              | change (startswith s p) with true
              | rewrite H ]
    end.

Lemma if_fullname_long x k v :
  (k, v) ∈ interface_full_name_map →
  startswith x v = true → if_fullname x = x.
Proof.
  intros H [r ->]%startswith_app.
  apply table_entries in H as [H|[H|[H|H]]]; simplify_eq; reflexivity.
Qed.

Lemma if_fullname_short x k v :
  (k, v) ∈ interface_full_name_map →
  startswith x k = true → startswith x v = false →
  if_fullname x = replace x k v.
Proof.
  intros H [r ->]%startswith_app Hv.
  unfold if_fullname, interface_full_name_map.
  apply table_entries in H as [H|[H|[H|H]]]; simplify_eq;
    cbn [if_fullname_loop]; eval_startswith Hv; reflexivity.
Qed.

Lemma if_shortname_long y k v :
  (k, v) ∈ interface_full_name_map →
  startswith y v = true → if_shortname y = replace y v k.
Proof.
  intros H [r ->]%startswith_app.
  apply table_entries in H as [H|[H|[H|H]]]; simplify_eq; reflexivity.
Qed.

Lemma replace_short_starts_long x k v :
  (k, v) ∈ interface_full_name_map →
  startswith x k = true → startswith (replace x k v) v = true.
Proof.
  intros (c0 & kt & w & -> & -> & _ & _)%table_shape [r ->]%startswith_app.
  unfold replace. rewrite replace_from_hit. apply startswith_prepend.
Qed.

End Normalizer.

(** C7 (as stated, refuted): the name ["GigabitEthernet0/1"] has the short
    prefix ["Gi"] of the table and already starts with the long form
    ["GigabitEthernet"]; [if_fullname] leaves it unchanged and [if_shortname]
    then shortens it, so the round trip returns ["Gi0/1"], not the input. *)
Lemma C7_round_trip_fails_on_long_form :
  ("Gi", "GigabitEthernet") ∈ interface_full_name_map
  ∧ PyStr.startswith "GigabitEthernet0/1" "Gi" = true
  ∧ PyStr.startswith "GigabitEthernet0/1" "GigabitEthernet" = true
  ∧ if_shortname (if_fullname "GigabitEthernet0/1") = "Gi0/1"
  ∧ if_shortname (if_fullname "GigabitEthernet0/1") ≠ "GigabitEthernet0/1".
Proof.
  split; [by repeat constructor|]. by repeat split.
Qed.

(** C7 (amended): for every entry [(k, v)] of the abbreviation table and
    every interface name [x],
    - if [x] starts with the short prefix [k] but not with its long form [v],
      then [if_shortname (if_fullname x) = x];
    - if [x] already starts with the long form [v], then [if_fullname x = x]
      and the round trip is [x] with [v] replaced by [k], which differs
      from [x]. *)
Theorem C7_round_trip_short_form (x k v : string) :
  (k, v) ∈ interface_full_name_map →
  (PyStr.startswith x k = true → PyStr.startswith x v = false →
   if_shortname (if_fullname x) = x)
  ∧ (PyStr.startswith x v = true →
     if_fullname x = x
     ∧ if_shortname (if_fullname x) = PyStr.replace x v k
     ∧ if_shortname (if_fullname x) ≠ x).
Proof.
  intros Hkv. split.
  - intros Hk Hv.
    rewrite (if_fullname_short x k v) by done.
    rewrite (if_shortname_long _ k v)
      by (done || by apply replace_short_starts_long).
    destruct (table_shape k v Hkv) as (c0 & kt & w & -> & -> & Hc0 & _).
    by apply replace_round_trip.
  - intros Hv.
    rewrite (if_fullname_long x k v) by done.
    rewrite (if_shortname_long x k v) by done.
    split; [done|]. split; [done|].
    destruct (table_shape k v Hkv) as (c0 & kt & w & -> & -> & _ & Hw).
    apply startswith_app in Hv as [r ->]. by apply shrink_changes.
Qed.

Lemma C7_round_trip_short_form_witness :
  if_shortname (if_fullname "Gi0/1") = "Gi0/1"
  ∧ if_shortname (if_fullname "GigabitEthernet0/1") ≠ "GigabitEthernet0/1".
Proof.
  assert (Hin : ("Gi", "GigabitEthernet") ∈ interface_full_name_map)
    by (by repeat constructor).
  split.
  - apply (proj1 (C7_round_trip_short_form "Gi0/1" "Gi" "GigabitEthernet" Hin));
      reflexivity.
  - apply (proj2 (C7_round_trip_short_form
                    "GigabitEthernet0/1" "Gi" "GigabitEthernet" Hin)).
    reflexivity.
Defined.

(** ** Collection-result normalizer: last write wins *)

Section DictFacts.

Context {V : Type}.
Implicit Types (d : Dict.t V) (k : string) (v : V).

Lemma dict_get_set_eq d k v : Dict.get (Dict.set d k v) k = Some v.
Proof.
  induction d as [|[k' v'] d IH]; simpl.
  - by rewrite decide_True.
  - destruct (decide (k' = k)) as [->|Hne]; simpl.
    + by rewrite decide_True.
    + by rewrite decide_False.
Qed.

Lemma dict_get_set_ne d k k' v :
  k ≠ k' → Dict.get (Dict.set d k v) k' = Dict.get d k'.
Proof.
  intros Hne. induction d as [|[k0 v0] d IH]; simpl.
  - by rewrite decide_False.
  - destruct (decide (k0 = k)) as [->|Hk]; simpl.
    + by rewrite !decide_False.
    + destruct (decide (k0 = k')); done.
Qed.

End DictFacts.

Section Normalize.

Lemma device_identity_spec device facts :
  device_identity device facts
  = if bool_decide (Facts.fqdn facts ≠ EmptyString) then Facts.fqdn facts
    else if bool_decide (Facts.hostname facts ≠ EmptyString) then Facts.hostname facts
    else device.
Proof.
  unfold device_identity.
  destruct (Facts.fqdn facts) as [|a s]; simpl; [|done].
  by destruct (Facts.hostname facts).
Qed.

(** Later iterations that write under other keys keep a binding. *)
Lemma normalize_steps_keep post acc k :
  (∀ it, it ∈ post → stored_key it ≠ k) →
  let acc' := fold_left normalize_step post acc in
  Dict.get acc'.1 k = Dict.get acc.1 k
  ∧ Dict.get acc'.2 k = Dict.get acc.2 k.
Proof.
  revert acc. induction post as [|it post IH]; intros acc Hpost; [done|].
  simpl. destruct (IH (normalize_step acc it)) as [-> ->].
  { intros it' Hin. apply Hpost. by right. }
  assert (stored_key it ≠ k) as Hk by (apply Hpost; by left).
  destruct acc as [l f], it as [device [|facts lldp]];
    unfold stored_key in Hk; simpl in *;
    by rewrite !dict_get_set_ne.
Qed.

End Normalize.

(** C5 (as stated, refuted): device ["a"] fails and a later device ["b"]
    reports the FQDN ["a"]; the second write replaces the first, so the
    returned maps do not bind the failed device's inventory name to the
    empty list. *)
Lemma C5_failed_binding_overwritten :
  let job : Dict.t PollOutcome :=
    [ ("a", Failed);
      ("b", Polled {| Facts.fqdn := "a"; Facts.hostname := "b";
                      Facts.model := None; Facts.serial_number := None |}
                   [("Gi0/1", [])]) ] in
  ("a", Failed) ∈ job
  ∧ Dict.get (normalize_result job).1 "a" ≠ Some LldpEmptyList
  ∧ Dict.get (normalize_result job).2 "a" ≠ Some FactsEmptyList.
Proof. simpl. split; [by left|]. by split. Qed.

(** C5 (amended): writes happen in iteration order and the last write under
    a key wins.  For every device of the poll result after which no other
    device is stored under the same key: a failed device has its inventory
    name bound to the empty list in both returned maps; a successful device
    has its facts and its LLDP detail bound, in the respective maps, under
    its FQDN if non-empty, else its hostname if non-empty, else its
    inventory name. *)
Theorem C5_normalize_result_last_write
    (job pre post : Dict.t PollOutcome) (device : string) (output : PollOutcome) :
  job = pre ++ (device, output) :: post →
  (∀ it, it ∈ post → stored_key it ≠ stored_key (device, output)) →
  match output with
  | Failed =>
      Dict.get (normalize_result job).1 device = Some LldpEmptyList
      ∧ Dict.get (normalize_result job).2 device = Some FactsEmptyList
  | Polled facts lldp =>
      let identity :=
        if bool_decide (Facts.fqdn facts ≠ EmptyString) then Facts.fqdn facts
        else if bool_decide (Facts.hostname facts ≠ EmptyString)
             then Facts.hostname facts
             else device in
      Dict.get (normalize_result job).1 identity = Some (LldpDetail lldp)
      ∧ Dict.get (normalize_result job).2 identity = Some (FactsOf facts)
  end.
Proof.
  intros -> Hpost. unfold normalize_result.
  rewrite fold_left_app. cbn [fold_left].
  destruct (fold_left normalize_step pre ([], [])) as [l f].
  destruct output as [|facts lldp].
  - destruct (normalize_steps_keep post
                (normalize_step (l, f) (device, Failed)) device Hpost)
      as [-> ->].
    cbn [normalize_step fst snd]. by rewrite !dict_get_set_eq.
  - cbv zeta. rewrite <- device_identity_spec.
    destruct (normalize_steps_keep post
                (normalize_step (l, f) (device, Polled facts lldp))
                (device_identity device facts) Hpost)
      as [-> ->].
    cbn [normalize_step fst snd]. by rewrite !dict_get_set_eq.
Qed.

Lemma C5_normalize_result_last_write_witness :
  let job : Dict.t PollOutcome :=
    [ ("a", Polled {| Facts.fqdn := EmptyString; Facts.hostname := "a-host";
                      Facts.model := Some "X"; Facts.serial_number := None |}
                   [("Gi0/1", [])]);
      ("b", Failed) ] in
  Dict.get (normalize_result job).1 "b" = Some LldpEmptyList
  ∧ Dict.get (normalize_result job).2 "b" = Some FactsEmptyList.
Proof.
  intros job.
  apply (C5_normalize_result_last_write job (firstn 1 job) [] "b" Failed).
  - reflexivity.
  - intros it Hit. by apply elem_of_nil in Hit.
Defined.

(** ** Diff engine *)

Section DiffEngine.

Implicit Types (l : RawLink) (ls : list RawLink).

Lemma prod_swap_involutive l : prod_swap (prod_swap l) = l.
Proof. by destruct l. Qed.

Lemma has_link_swap ls l : has_link ls (prod_swap l) ↔ has_link ls l.
Proof. unfold has_link. rewrite prod_swap_involutive. tauto. Qed.

Lemma has_link_alt ls l : has_link ls l ↔ ∃ l', l' ∈ ls ∧ same_link l' l.
Proof.
  unfold has_link, same_link. split.
  - intros [H|H]; eauto.
  - intros (l' & Hin & [->| ->]); auto.
Qed.

(** The links kept by one of the two link loops. *)
Lemma elem_of_link_filter ls other l :
  l ∈ filter (λ l, (l ∉ other) ∧ (prod_swap l ∉ other)) ls
  ↔ l ∈ ls ∧ ¬ has_link other l.
Proof. rewrite list_elem_of_filter. unfold has_link. tauto. Qed.

Lemma has_link_filter ls other l :
  has_link (filter (λ l, (l ∉ other) ∧ (prod_swap l ∉ other)) ls) l
  ↔ has_link ls l ∧ ¬ has_link other l.
Proof.
  unfold has_link at 1 2. rewrite !elem_of_link_filter, has_link_swap. tauto.
Qed.

End DiffEngine.

(** C2: in [get_topology_diff previous current] a node name is reported
    [added] iff it is the name of a node of [current] and of no node of
    [previous], and [deleted] iff the converse; a link tuple is reported
    [added] iff it is the endpoint tuple of a link of [current] and neither it
    nor its swap is the endpoint tuple of a link of [previous], and [deleted]
    iff the converse; the same holds with links read as unordered pairs.
    Only node names and endpoint tuples enter the comparison. *)
Theorem C2_diff_membership (previous current : Topology) :
  let names (t : Topology) := Node.name <$> nodes t in
  let keys (t : Topology) := link_key <$> links t in
  let diff := get_topology_diff previous current in
  (∀ n, n ∈ added diff.1 ↔ n ∈ names current ∧ n ∉ names previous)
  ∧ (∀ n, n ∈ deleted diff.1 ↔ n ∈ names previous ∧ n ∉ names current)
  ∧ (∀ l, l ∈ added diff.2
          ↔ l ∈ keys current ∧ (l ∉ keys previous) ∧ (prod_swap l ∉ keys previous))
  ∧ (∀ l, l ∈ deleted diff.2
          ↔ l ∈ keys previous ∧ (l ∉ keys current) ∧ (prod_swap l ∉ keys current))
  ∧ (∀ l, has_link (added diff.2) l
          ↔ has_link (keys current) l ∧ ¬ has_link (keys previous) l)
  ∧ (∀ l, has_link (deleted diff.2) l
          ↔ has_link (keys previous) l ∧ ¬ has_link (keys current) l).
Proof.
  intros names keys diff. subst diff. unfold get_topology_diff.
  cbn [fst snd added deleted].
  fold (names previous) (names current) (keys previous) (keys current).
  split_and!; intros x.
  - rewrite list_elem_of_filter. tauto.
  - rewrite list_elem_of_filter. tauto.
  - rewrite elem_of_link_filter. unfold has_link. tauto.
  - rewrite elem_of_link_filter. unfold has_link. tauto.
  - apply has_link_filter.
  - apply has_link_filter.
Qed.

(** C3: swapping the two snapshots swaps the roles of [added] and [deleted],
    for nodes and for links, as lists. *)
Theorem C3_diff_swap (prev curr : Topology) :
  added (get_topology_diff prev curr).1
  = deleted (get_topology_diff curr prev).1
  ∧ deleted (get_topology_diff prev curr).1
    = added (get_topology_diff curr prev).1
  ∧ added (get_topology_diff prev curr).2
    = deleted (get_topology_diff curr prev).2
  ∧ deleted (get_topology_diff prev curr).2
    = added (get_topology_diff curr prev).2.
Proof. by repeat split. Qed.

(** ** Loops that may raise *)

Section FoldM.

Context {S A : Type} (f : S → A → result S).

Lemma foldM_cons s x l :
  foldM f s (x :: l) = match f s x with Ok s1 => foldM f s1 l | Err e => Err e end.
Proof. reflexivity. Qed.

Lemma foldM_invariant (P : S → Prop) l s s' :
  (∀ s x s', x ∈ l → P s → f s x = Ok s' → P s') →
  P s → foldM f s l = Ok s' → P s'.
Proof.
  revert s. induction l as [|x l IH]; intros s Hstep Hs Hf.
  - by simplify_eq/=.
  - rewrite foldM_cons in Hf. destruct (f s x) as [s1|e] eqn:Hfx; [|done].
    apply (IH s1); [|by eapply Hstep; [left|..]|done].
    intros ???? ; apply Hstep. by right.
Qed.

Lemma foldM_rel (R : relation S) `{!PreOrder R} l s s' :
  (∀ s x s', x ∈ l → f s x = Ok s' → R s s') →
  foldM f s l = Ok s' → R s s'.
Proof.
  intros Hstep Hf.
  apply (foldM_invariant (R s) l s s'); [|done|done].
  intros s1 x s2 Hx Hs1 Hfx. etrans; [done|]. by eapply Hstep.
Qed.

(** Every element of the list has been run through the body. *)
Lemma foldM_visits (R : relation S) `{!PreOrder R} l s s' x :
  (∀ s x s', x ∈ l → f s x = Ok s' → R s s') →
  foldM f s l = Ok s' → x ∈ l →
  ∃ s1 s2, R s s1 ∧ f s1 x = Ok s2 ∧ R s2 s'.
Proof.
  revert s. induction l as [|y l IH]; intros s Hstep Hf Hx.
  - by apply elem_of_nil in Hx.
  - rewrite foldM_cons in Hf. destruct (f s y) as [s1|e] eqn:Hfy; [|done].
    assert (∀ s x s', x ∈ l → f s x = Ok s' → R s s') as Hstep'.
    { intros ????. apply Hstep. by right. }
    apply elem_of_cons in Hx as [->|Hx].
    + exists s, s1. split_and!; [done|done|]. by eapply foldM_rel.
    + destruct (IH s1 Hstep' Hf Hx) as (s2 & s3 & H1 & H2 & H3).
      exists s2, s3. split_and!; [|done|done].
      etrans; [|done]. eapply Hstep; [by left|done].
Qed.

(** A loop whose body never raises on the states it can reach returns. *)
Lemma foldM_ok (P : S → Prop) l s :
  (∀ s x, x ∈ l → P s → ∃ s', f s x = Ok s' ∧ P s') →
  P s → ∃ s', foldM f s l = Ok s' ∧ P s'.
Proof.
  revert s. induction l as [|x l IH]; intros s Hstep Hs.
  - by exists s.
  - destruct (Hstep s x) as (s1 & Hfx & Hs1); [by left|done|].
    rewrite foldM_cons, Hfx. apply IH; [|done].
    intros ????. apply Hstep; [by right|done].
Qed.

End FoldM.

(** ** Topology extractor *)

Section Extractor.

Implicit Types (st : ExtractState) (l c : RawLink) (ls : list RawLink).
Implicit Types (nb : NeighborRecord) (host iface : string).

Lemma falsy_true s : PyStr.falsy s = true ↔ s = EmptyString.
Proof. by destruct s. Qed.

Lemma falsy_false s : PyStr.falsy s = false ↔ s ≠ EmptyString.
Proof. by destruct s. Qed.

Lemma same_link_sym a b : same_link a b → same_link b a.
Proof.
  intros [->| ->]; [by left|]. right. by rewrite prod_swap_involutive.
Qed.

Lemma same_link_has_link ls a b :
  same_link a b → has_link ls a ↔ has_link ls b.
Proof.
  intros [->| ->]; [done|]. apply has_link_swap.
Qed.

Lemma has_link_mono ls ls' c : ls ⊆ ls' → has_link ls c → has_link ls' c.
Proof. unfold has_link. intros Hsub [?|?]; auto. Qed.

Lemma has_link_cons ls x c :
  has_link (x :: ls) c ↔ same_link x c ∨ has_link ls c.
Proof.
  unfold has_link, same_link. rewrite !elem_of_cons. split.
  - intros [[->|?]|[<-|?]]; auto.
  - intros [[->| ->]|[?|?]]; rewrite ?prod_swap_involutive; auto.
Qed.

Lemma has_link_snoc ls x c :
  has_link (ls ++ [x]) c ↔ has_link ls c ∨ same_link x c.
Proof.
  induction ls as [|y ls IH]; simpl.
  - rewrite has_link_cons. unfold has_link.
    rewrite !elem_of_nil. tauto.
  - rewrite !has_link_cons, IH. tauto.
Qed.

Lemma NoSymDup_snoc ls c :
  NoSymDup ls → ¬ has_link ls c → NoSymDup (ls ++ [c]).
Proof.
  induction 1 as [|x ls Hx Hls IH]; intros Hc; simpl.
  - constructor; [|constructor]. unfold has_link. rewrite !elem_of_nil. tauto.
  - rewrite has_link_cons in Hc. constructor.
    + rewrite has_link_snoc. intros [?|?%same_link_sym]; tauto.
    + apply IH. tauto.
Qed.

Lemma filter_same_link_nil ls c :
  ¬ has_link ls c → filter (λ l, same_link l c) ls = [].
Proof.
  induction ls as [|x ls IH]; intros Hc; [done|].
  rewrite has_link_cons in Hc.
  rewrite filter_cons_False by tauto. apply IH. tauto.
Qed.

(** In a list without symmetric duplicates an endpoint pair that is
    present is present once. *)
Lemma NoSymDup_count ls c :
  NoSymDup ls → has_link ls c →
  length (filter (λ l, same_link l c) ls) = 1.
Proof.
  induction 1 as [|x ls Hx Hls IH]; intros Hc.
  - unfold has_link in Hc. rewrite !elem_of_nil in Hc. tauto.
  - apply has_link_cons in Hc.
    destruct (decide (same_link x c)) as [Hxc|Hxc].
    + rewrite filter_cons_True by done.
      rewrite filter_same_link_nil; [done|].
      by rewrite <- (same_link_has_link ls x c).
    + rewrite filter_cons_False by done. apply IH. tauto.
Qed.

#[global] Instance grows_preorder : PreOrder grows.
Proof.
  split.
  - by intros st.
  - intros s1 s2 s3 (?&?&?) (?&?&?). split_and!; by etrans.
Qed.

(** The cases of one run of the innermost loop body that does not raise. *)
Lemma neighbor_step_Ok host iface st nb st' :
  neighbor_step host iface st nb = Ok st' →
  (remote_system_name nb = EmptyString ∧ st' = st)
  ∨ (remote_system_name nb ≠ EmptyString
     ∧ ∃ cap,
         head (remote_system_enable_capab nb) = Some cap
         ∧ discovered_hosts st'
           = {[ remote_system_name nb ]} ∪ discovered_hosts st
         ∧ lldp_capabilities_dict st'
           = <[ remote_system_name nb := cap ]> (lldp_capabilities_dict st)
         ∧ ((has_link (global_interconnections st) (candidate host iface nb)
             ∧ global_interconnections st' = global_interconnections st)
            ∨ (¬ has_link (global_interconnections st)
                          (candidate host iface nb)
               ∧ global_interconnections st'
                 = global_interconnections st ++ [candidate host iface nb]))).
Proof.
  unfold neighbor_step.
  destruct (PyStr.falsy (remote_system_name nb)) eqn:Hname.
  { apply falsy_true in Hname. intros [= <-]. by left. }
  apply falsy_false in Hname.
  destruct (remote_system_enable_capab nb) as [|cap caps]; [done|].
  cbn [index0 mbind result_bind].
  fold (candidate host iface nb).
  change (remote_system_name nb, if_fullname (remote_port nb), (host, iface))
    with (prod_swap (candidate host iface nb)).
  intros Hst. right. split; [done|]. exists cap. split; [done|].
  destruct (bool_decide (candidate host iface nb ∈ global_interconnections st)
            || bool_decide (prod_swap (candidate host iface nb)
                              ∈ global_interconnections st)) eqn:Hthere;
    injection Hst as <-; cbn; split_and!; try done.
  - left. split; [|done].
    apply orb_true_iff in Hthere as [H|H]; apply bool_decide_eq_true in H;
      [by left|by right].
  - right. split; [|done].
    apply orb_false_iff in Hthere as [H1 H2].
    apply bool_decide_eq_false in H1, H2. by intros [?|?].
Qed.

End Extractor.

Section ExtractorLoops.

Implicit Types (st : ExtractState) (nb : NeighborRecord).
Implicit Types (host iface : string).

Variable Rep : string → string → NeighborRecord → Prop.

Lemma neighbor_step_grows host iface st nb st' :
  neighbor_step host iface st nb = Ok st' → grows st st'.
Proof.
  intros [[_ ->]|(_ & cap & _ & Hh & Hc & Hl)]%neighbor_step_Ok; [done|].
  unfold grows. rewrite Hh, Hc, dom_insert_L.
  split_and!; [|apply union_subseteq_r..].
  destruct Hl as [[_ ->]|[_ ->]]; [done|].
  by apply sublist_subseteq, sublist_inserts_r.
Qed.

Lemma neighbor_step_inv host iface st nb st' :
  (remote_system_name nb ≠ EmptyString → Rep host iface nb) →
  host ∈ discovered_hosts st →
  extract_inv Rep st →
  neighbor_step host iface st nb = Ok st' →
  extract_inv Rep st'.
Proof.
  intros HRep Hhost [Hfrom Hends Hcaps Hnd].
  intros [[_ ->]|(Hname & cap & Hcap & Hh & Hc & Hl)]%neighbor_step_Ok;
    [done|].
  specialize (HRep Hname).
  assert (∀ l, l ∈ global_interconnections st' →
               l ∈ global_interconnections st ∨ l = candidate host iface nb)
    as Hin.
  { intros l. destruct Hl as [[_ ->]|[_ ->]]; [auto|].
    rewrite elem_of_app, list_elem_of_singleton. tauto. }
  split.
  - intros l [Hl'| ->]%Hin; [by apply Hfrom|]. by exists host, iface, nb.
  - intros l [Hl'| ->]%Hin; rewrite Hh.
    + destruct (Hends l Hl'). split; by apply elem_of_union_r.
    + simpl. split; [by apply elem_of_union_r|].
      apply elem_of_union_l. by apply elem_of_singleton.
  - intros k c. rewrite Hc, lookup_insert.
    case_decide as Hk; [|by apply Hcaps].
    intros [= <-]. by exists host, iface, nb.
  - destruct Hl as [[_ ->]|[Hnew ->]]; [done|]. by apply NoSymDup_snoc.
Qed.

(** A record with a name leaves its endpoint pair in the link list and its
    system name in the capability dictionary. *)
Lemma neighbor_step_records host iface st nb st' :
  remote_system_name nb ≠ EmptyString →
  neighbor_step host iface st nb = Ok st' →
  has_link (global_interconnections st') (candidate host iface nb)
  ∧ remote_system_name nb ∈ dom (lldp_capabilities_dict st').
Proof.
  intros Hname [[? _]|(_ & cap & _ & _ & Hc & Hl)]%neighbor_step_Ok; [done|].
  split.
  - destruct Hl as [[? ->]|[_ ->]]; [done|].
    apply has_link_snoc. right. by left.
  - rewrite Hc, dom_insert_L. apply elem_of_union_l. by apply elem_of_singleton.
Qed.

Lemma neighbor_step_total host iface st nb :
  (remote_system_name nb ≠ EmptyString → remote_system_enable_capab nb ≠ []) →
  ∃ st', neighbor_step host iface st nb = Ok st'.
Proof.
  intros Hcap. unfold neighbor_step.
  destruct (PyStr.falsy (remote_system_name nb)) eqn:Hname; [by eexists|].
  apply falsy_false in Hname.
  destruct (remote_system_enable_capab nb) as [|cap caps];
    [by destruct Hcap|].
  cbn [index0 mbind result_bind]. by case_match; eexists.
Qed.

Lemma interface_step_grows host st item st' :
  interface_step host st item = Ok st' → grows st st'.
Proof.
  apply foldM_rel; [apply _|]. intros ????. apply neighbor_step_grows.
Qed.

Lemma interface_step_inv host st item st' :
  (∀ nb, nb ∈ item.2 → remote_system_name nb ≠ EmptyString → Rep host item.1 nb) →
  host ∈ discovered_hosts st →
  extract_inv Rep st →
  interface_step host st item = Ok st' →
  extract_inv Rep st' ∧ host ∈ discovered_hosts st'.
Proof.
  intros HRep Hhost Hinv Hst.
  apply (foldM_invariant (neighbor_step host item.1)
           (λ s, extract_inv Rep s ∧ host ∈ discovered_hosts s)
           item.2 st st'); [|done|done].
  intros s nb s' Hnb [Hs Hh] Hstep. split.
  - eapply neighbor_step_inv; eauto.
  - apply neighbor_step_grows in Hstep as (_ & Hsub & _). by apply Hsub.
Qed.

Lemma host_step_grows st item st' :
  host_step st item = Ok st' → grows st st'.
Proof.
  destruct item as [host entry]. unfold host_step.
  destruct (PyStr.falsy host); [by intros [= <-]|].
  set (st1 := {| discovered_hosts := _ |}).
  assert (grows st st1) as Hst1.
  { unfold grows. simpl. split_and!; [done|apply union_subseteq_r|done]. }
  destruct (lldp_falsy entry); [by intros [= <-]|].
  intros Hst. etrans; [done|].
  revert Hst. apply foldM_rel; [apply _|].
  intros ????. apply interface_step_grows.
Qed.

Lemma host_step_inv st item st' :
  (∀ d iface nbs nb,
      item.1 ≠ EmptyString → item.2 = LldpDetail d → (iface, nbs) ∈ d → nb ∈ nbs →
      remote_system_name nb ≠ EmptyString → Rep item.1 iface nb) →
  extract_inv Rep st →
  host_step st item = Ok st' →
  extract_inv Rep st'.
Proof.
  destruct item as [host entry]. simpl. intros HRep Hinv. unfold host_step.
  destruct (PyStr.falsy host) eqn:Hhost; [by intros [= <-]|].
  apply falsy_false in Hhost.
  set (st1 := {| discovered_hosts := _ |}).
  assert (extract_inv Rep st1 ∧ host ∈ discovered_hosts st1) as Hst1.
  { destruct Hinv as [Hfrom Hends Hcaps Hnd].
    split; [split; try done|].
    - intros l Hl. destruct (Hends l Hl). simpl.
      split; by apply elem_of_union_r.
    - simpl. apply elem_of_union_l. by apply elem_of_singleton. }
  destruct (lldp_falsy entry) eqn:Hdata; [intros [= <-]; tauto|].
  destruct entry as [|d]; [done|]. cbn [lldp_items].
  intros Hst.
  apply (foldM_invariant (interface_step host)
           (λ s, extract_inv Rep s ∧ host ∈ discovered_hosts s)
           d st1 st'); [|done|done].
  intros s [iface nbs] s' Hitem [Hs Hh] Hstep.
  eapply interface_step_inv; eauto.
  simpl. intros nb Hnb Hname. by eapply HRep.
Qed.

End ExtractorLoops.

Section ExtractorResult.

Implicit Types (lldp : Dict.t LldpEntry) (ls : list RawLink).
Implicit Types (hosts : gset string) (caps : gmap string string).

Lemma extract_Ok lldp hosts ls caps :
  extract_lldp_details lldp = Ok (hosts, ls, caps) →
  foldM host_step extract_init lldp
  = Ok {| discovered_hosts := hosts;
          lldp_capabilities_dict := caps;
          global_interconnections := ls |}.
Proof.
  unfold extract_lldp_details.
  destruct (foldM host_step extract_init lldp) as [[h c l]|e]; [|done].
  by intros [= -> -> ->].
Qed.

Lemma extract_init_inv Rep : extract_inv Rep extract_init.
Proof.
  split; simpl.
  - by intros l ?%elem_of_nil.
  - by intros l ?%elem_of_nil.
  - intros k c. by rewrite lookup_empty.
  - constructor.
Qed.

Lemma extract_result_inv lldp hosts ls caps :
  extract_lldp_details lldp = Ok (hosts, ls, caps) →
  extract_inv (reported lldp)
    {| discovered_hosts := hosts;
       lldp_capabilities_dict := caps;
       global_interconnections := ls |}.
Proof.
  intros Hex%extract_Ok. revert Hex.
  apply foldM_invariant; [|apply extract_init_inv].
  intros st [host entry] st' Hitem Hst.
  apply host_step_inv; [|done]. simpl.
  intros d iface nbs nb Hhost -> Hd Hnb Hname.
  split_and!; [done|done|]. by exists d, nbs.
Qed.

Lemma extract_result_records lldp hosts ls caps host iface nb :
  extract_lldp_details lldp = Ok (hosts, ls, caps) →
  reported lldp host iface nb →
  has_link ls (candidate host iface nb) ∧ remote_system_name nb ∈ dom caps.
Proof.
  intros Hex%extract_Ok (Hhost & Hname & d & nbs & Hlldp & Hd & Hnb).
  destruct (foldM_visits host_step grows _ _ _ _
              (λ s x s' _, host_step_grows s x s') Hex Hlldp)
    as (s1 & s2 & _ & Hstep & (Hgl & _ & Hgc)).
  simpl in Hgl, Hgc. unfold host_step in Hstep.
  apply falsy_false in Hhost. rewrite Hhost in Hstep.
  assert (lldp_falsy (LldpDetail d) = false) as Hdata
    by (destruct d; [by apply elem_of_nil in Hd|done]).
  rewrite Hdata in Hstep. cbn [lldp_items] in Hstep.
  destruct (foldM_visits (interface_step host) grows _ _ _ _
              (λ s x s' _, interface_step_grows host s x s') Hstep Hd)
    as (s3 & s4 & _ & Hstep' & (Hgl' & _ & Hgc')).
  destruct (foldM_visits (neighbor_step host iface) grows _ _ _ _
              (λ s x s' _, neighbor_step_grows host iface s x s') Hstep' Hnb)
    as (s5 & s6 & _ & Hstep'' & (Hgl'' & _ & Hgc'')).
  destruct (neighbor_step_records host iface s5 nb s6 Hname Hstep'')
    as [Hlink Hcap].
  split.
  - eapply has_link_mono; [|done]. by do 2 (etrans; [done|]).
  - by apply Hgc, Hgc', Hgc''.
Qed.

(** The extractor returns whenever every named neighbor record carries at
    least one capability code. *)
Lemma extract_total lldp :
  (∀ host iface nb,
      reported lldp host iface nb → remote_system_enable_capab nb ≠ []) →
  ∃ out, extract_lldp_details lldp = Ok out.
Proof.
  intros Hcap. unfold extract_lldp_details.
  destruct (foldM_ok host_step (λ _, True) lldp extract_init)
    as (st & -> & _); [|done|by eexists].
  intros st [host entry] Hitem _. unfold host_step.
  destruct (PyStr.falsy host) eqn:Hhost; [by eexists|].
  apply falsy_false in Hhost.
  destruct (lldp_falsy entry) eqn:Hdata; [by eexists|].
  destruct entry as [|d]; [done|]. cbn [lldp_items].
  apply (foldM_ok (interface_step host) (λ _, True)); [|done].
  intros s [iface nbs] Hd _.
  apply (foldM_ok (neighbor_step host iface) (λ _, True)); [|done].
  intros s' nb Hnb _.
  destruct (neighbor_step_total host iface s' nb) as [s'' ->]; [|by eexists].
  intros Hname. apply (Hcap host iface). split_and!; [done|done|].
  by exists d, nbs.
Qed.

End ExtractorResult.

(** C1: in every link list returned by [extract_lldp_details],
    - the endpoint pair of every neighbor record the loops run over is held by
      exactly one entry, counting both endpoint orders;
    - every entry is the only one for its unordered endpoint pair;
    and a loop iteration whose candidate is already recorded in either
    endpoint order leaves the link list unchanged. *)
Theorem C1_link_dedup_symmetric
    (lldp : Dict.t LldpEntry)
    (hosts : gset string) (ls : list RawLink) (caps : gmap string string) :
  extract_lldp_details lldp = Ok (hosts, ls, caps) →
  (∀ host iface nb,
      reported lldp host iface nb →
      length (filter (λ l, same_link l (candidate host iface nb)) ls) = 1)
  ∧ (∀ l, l ∈ ls → length (filter (λ l', same_link l' l) ls) = 1)
  ∧ (∀ host iface st nb st',
        has_link (global_interconnections st) (candidate host iface nb) →
        neighbor_step host iface st nb = Ok st' →
        global_interconnections st' = global_interconnections st).
Proof.
  intros Hex.
  pose proof (inv_no_sym_dup _ _ (extract_result_inv _ _ _ _ Hex)) as Hnd.
  simpl in Hnd. split_and!.
  - intros host iface nb Hrep. apply NoSymDup_count; [done|].
    by eapply extract_result_records.
  - intros l Hl. apply NoSymDup_count; [done|]. by left.
  - intros host iface st nb st' Hthere
      [[_ ->]|(_ & _ & _ & _ & _ & [[_ ->]|[? _]])]%neighbor_step_Ok; done.
Qed.

Lemma C1_link_dedup_symmetric_witness :
  let a_to_b : RawLink :=
    (("A", "GigabitEthernet0/1"), ("B", "GigabitEthernet0/2")) in
  links_of (extract_lldp_details lldp_pair_long) = Ok [a_to_b]
  ∧ length (filter (λ l, same_link l (prod_swap a_to_b)) [a_to_b]) = 1.
Proof.
  intros a_to_b. split; [reflexivity|].
  assert (extract_lldp_details lldp_pair_long
          = Ok (list_to_set ["A"; "B"], [a_to_b],
                list_to_map [("A", "router"); ("B", "switch")])) as Hex
    by (vm_compute; reflexivity).
  apply (proj1 (C1_link_dedup_symmetric _ _ _ _ Hex)
           "B" "GigabitEthernet0/2" (neighbor "A" "Gi0/1" ["router"])).
  split_and!; [done|done|].
  eexists _, _. split_and!; [|by left|by left].
  right. by left.
Defined.

(** C8 (as stated, refuted): device ["A"] reports its neighbor on the local
    interface ["Gi0/1"]; the recorded link keeps that name as reported,
    although its long form is ["GigabitEthernet0/1"]. *)
Lemma C8_local_interface_kept_as_reported :
  links_of
    (extract_lldp_details
       [("A", LldpDetail [("Gi0/1", [neighbor "B" "Gi0/2" ["switch"]])])])
  = Ok [(("A", "Gi0/1"), ("B", "GigabitEthernet0/2"))]
  ∧ if_fullname "Gi0/1" = "GigabitEthernet0/1"
  ∧ if_fullname "Gi0/1" ≠ "Gi0/1".
Proof. by split_and!. Qed.

(** C9: a neighbor record with a system name and an empty capability list
    makes [extract_lldp_details] raise [IndexError]. *)
Theorem C9_empty_capability_list_raises :
  extract_lldp_details lldp_no_capability = Err IndexError.
Proof. reflexivity. Qed.

(** C10: when both ends of one adjacency report it with abbreviated local
    interface names, the returned link list holds two entries for it: they
    differ in both endpoint orders, although they are the same link once all
    interface names are in long form. *)
Theorem C10_abbreviated_local_names_duplicate_link :
  ∃ (lldp : Dict.t LldpEntry) (l1 l2 : RawLink),
    links_of (extract_lldp_details lldp) = Ok [l1; l2]
    ∧ ¬ same_link l1 l2
    ∧ same_link (long_form_link l1) (long_form_link l2).
Proof.
  exists lldp_pair_short,
    (("A", "Gi0/1"), ("B", "GigabitEthernet0/2")),
    (("B", "Gi0/2"), ("A", "GigabitEthernet0/1")).
  split_and!; [reflexivity| |by right].
  by intros [?|?].
Qed.

(** ** Long forms are fixed by the normalizer *)

Section LongForm.

Import PyStr.

Ltac table_case x k v :=
  destruct (startswith x v) eqn:?; [by left|];
  destruct (startswith x k) eqn:?;
    [right; exists k, v; split_and!; [by repeat constructor|done|done]|].

Lemma if_fullname_cases x :
  if_fullname x = x
  ∨ ∃ k v, (k, v) ∈ interface_full_name_map
           ∧ startswith x k = true ∧ if_fullname x = replace x k v.
Proof.
  unfold if_fullname, interface_full_name_map. cbn [if_fullname_loop].
  table_case x "Eth" "Ethernet".
  table_case x "Fa" "FastEthernet".
  table_case x "Gi" "GigabitEthernet".
  table_case x "Te" "TenGigabitEthernet".
  by left.
Qed.

Lemma if_fullname_idempotent x : if_fullname (if_fullname x) = if_fullname x.
Proof.
  destruct (if_fullname_cases x) as [Hx|(k & v & Hkv & Hk & ->)];
    [by rewrite !Hx|].
  apply (if_fullname_long _ k v); [done|].
  by apply replace_short_starts_long.
Qed.

End LongForm.

(** C8 (amended): every link returned by [extract_lldp_details] comes from a
    neighbor record the loops run over; its local end carries the interface
    name exactly as the reporting device lists it, and its remote end carries
    [if_fullname] of the reported remote port, which [if_fullname] leaves
    unchanged. *)
Theorem C8_remote_interface_long_form
    (lldp : Dict.t LldpEntry)
    (hosts : gset string) (ls : list RawLink) (caps : gmap string string) :
  extract_lldp_details lldp = Ok (hosts, ls, caps) →
  ∀ l, l ∈ ls →
    (∃ host iface nb,
        reported lldp host iface nb
        ∧ l.1 = (host, iface)
        ∧ l.2 = (remote_system_name nb, if_fullname (remote_port nb)))
    ∧ if_fullname l.2.2 = l.2.2.
Proof.
  intros Hex l Hl.
  destruct (inv_links_from _ _ (extract_result_inv _ _ _ _ Hex) l Hl)
    as (host & iface & nb & Hrep & ->).
  split; [by exists host, iface, nb|]. apply if_fullname_idempotent.
Qed.

Lemma C8_remote_interface_long_form_witness :
  if_fullname "GigabitEthernet0/2" = "GigabitEthernet0/2".
Proof.
  assert (extract_lldp_details lldp_pair_short
          = Ok (list_to_set ["A"; "B"],
                [ (("A", "Gi0/1"), ("B", "GigabitEthernet0/2"));
                  (("B", "Gi0/2"), ("A", "GigabitEthernet0/1")) ],
                list_to_map [("A", "router"); ("B", "switch")])) as Hex
    by (vm_compute; reflexivity).
  apply (C8_remote_interface_long_form _ _ _ _ Hex
           (("A", "Gi0/1"), ("B", "GigabitEthernet0/2"))).
  by left.
Defined.

(** ** Topology builder *)

Section Builder.

Variables (caps : gmap string string) (facts : Dict.t FactsEntry).

Lemma make_node_id i h : Node.id (make_node caps facts i h) = i.
Proof. unfold make_node. by repeat case_match. Qed.

Lemma make_node_name i h : Node.name (make_node caps facts i h) = h.
Proof. unfold make_node. by repeat case_match. Qed.

Lemma make_node_icon i h :
  Node.icon (make_node caps facts i h)
  = get_icon_type (default EmptyString (caps !! h)).
Proof. unfold make_node. by repeat case_match. Qed.

(** The node loop numbers the hosts in enumeration order and records each
    number in [host_id_map]. *)
Lemma node_loop_spec hs n m ns :
  let r := fold_left (node_step caps facts) hs (n, m, ns) in
  r.2 = ns ++ zip_with (make_node caps facts) (seq n (length hs)) hs
  ∧ (∀ h, h ∉ hs → r.1.2 !! h = m !! h)
  ∧ (∀ h, h ∈ hs → ∃ j, r.1.2 !! h = Some (n + j) ∧ hs !! j = Some h).
Proof.
  revert n m ns. induction hs as [|x hs IH]; intros n m ns; simpl.
  - split_and!; [by rewrite app_nil_r|done|]. by intros h ?%elem_of_nil.
  - destruct (IH (S n) (<[x:=n]> m)
                 (ns ++ [make_node caps facts n x])) as (Hns & Hother & Hin).
    split_and!.
    + by rewrite Hns, <- app_assoc.
    + intros h [Hx Hh]%not_elem_of_cons.
      rewrite Hother by done. by rewrite lookup_insert_ne.
    + intros h Hh. destruct (decide (h ∈ hs)) as [Hhs|Hhs].
      * destruct (Hin h Hhs) as (j & Hj & Hlook).
        exists (S j). split; [|done]. rewrite Hj. f_equal. lia.
      * apply elem_of_cons in Hh as [->|?]; [|done].
        exists 0. split; [|done].
        rewrite Hother by done. rewrite lookup_insert_eq. f_equal. lia.
Qed.

Lemma zip_nodes_ids n hs :
  Node.id <$> zip_with (make_node caps facts) (seq n (length hs)) hs
  = seq n (length hs).
Proof.
  revert n. induction hs as [|x hs IH]; intros n; [done|]. simpl.
  by rewrite make_node_id, IH.
Qed.

Lemma zip_nodes_names n hs :
  Node.name <$> zip_with (make_node caps facts) (seq n (length hs)) hs = hs.
Proof.
  revert n. induction hs as [|x hs IH]; intros n; [done|]. simpl.
  by rewrite make_node_name, IH.
Qed.

Lemma zip_nodes_lookup n hs j h :
  hs !! j = Some h →
  zip_with (make_node caps facts) (seq n (length hs)) hs !! j
  = Some (make_node caps facts (n + j) h).
Proof.
  intros Hj. rewrite lookup_zip_with, lookup_seq_lt, Hj; [done|].
  by eapply lookup_lt_Some.
Qed.

Lemma zip_nodes_elem n hs x :
  x ∈ zip_with (make_node caps facts) (seq n (length hs)) hs →
  ∃ i h, h ∈ hs ∧ x = make_node caps facts i h.
Proof.
  intros (i & h & -> & _ & Hh)%elem_of_zip_with. by exists i, h.
Qed.

End Builder.

Section LinkLoop.

Variable m : gmap string nat.

Lemma link_step_Ok k out raw acc :
  link_step m (k, out) raw = Ok acc →
  ∃ s t, m !! raw.1.1 = Some s ∧ m !! raw.2.1 = Some t
         ∧ acc = (S k, out ++ [make_link k s t raw]).
Proof.
  unfold link_step, host_id_lookup.
  destruct (m !! raw.1.1) as [s|]; [|done].
  destruct (m !! raw.2.1) as [t|]; [|done].
  intros [= <-]. by exists s, t.
Qed.

Lemma link_step_total k out raw :
  is_Some (m !! raw.1.1) → is_Some (m !! raw.2.1) →
  ∃ acc, link_step m (k, out) raw = Ok acc.
Proof.
  intros [s Hs] [t Ht]. unfold link_step, host_id_lookup.
  rewrite Hs, Ht. by eexists.
Qed.

(** The link loop numbers the links in list order and resolves both
    endpoint devices through [host_id_map]. *)
Lemma link_loop_spec raws k out k' out' :
  foldM (link_step m) (k, out) raws = Ok (k', out') →
  ∃ new,
    out' = out ++ new
    ∧ Link.id <$> new = seq k (length raws)
    ∧ Forall2 (λ raw lk,
                 ∃ s t, m !! raw.1.1 = Some s ∧ m !! raw.2.1 = Some t
                        ∧ lk = make_link (Link.id lk) s t raw) raws new.
Proof.
  revert k out. induction raws as [|raw raws IH]; intros k out Hloop.
  - injection Hloop as <- <-. exists []. by rewrite app_nil_r.
  - rewrite foldM_cons in Hloop.
    destruct (link_step m (k, out) raw) as [acc|e] eqn:Hstep; [|done].
    apply link_step_Ok in Hstep as (s & t & Hs & Ht & ->).
    destruct (IH _ _ Hloop) as (new & -> & Hids & Hall).
    exists (make_link k s t raw :: new). split_and!.
    + by rewrite <- app_assoc.
    + rewrite fmap_cons, Hids. done.
    + constructor; [|done]. by exists s, t.
Qed.

Lemma link_loop_total raws k out :
  (∀ raw, raw ∈ raws → is_Some (m !! raw.1.1) ∧ is_Some (m !! raw.2.1)) →
  ∃ acc, foldM (link_step m) (k, out) raws = Ok acc.
Proof.
  intros Hraws.
  destruct (foldM_ok (link_step m) (λ _, True) raws (k, out))
    as (acc & Hacc & _); [|done|by exists acc].
  intros [k1 out1] raw Hraw _.
  destruct (Hraws raw Hraw) as [H1 H2].
  destruct (link_step_total k1 out1 raw H1 H2) as [acc ->]. by exists acc.
Qed.

End LinkLoop.

Section Generate.

Variables (caps : gmap string string) (facts : Dict.t FactsEntry).
Implicit Types (hs : list string) (ls : list RawLink) (topo : Topology).

Lemma generate_topology_json_Ok hs ls topo :
  generate_topology_json hs ls caps facts = Ok topo →
  nodes topo = zip_with (make_node caps facts) (seq 0 (length hs)) hs
  ∧ Link.id <$> links topo = seq 0 (length ls)
  ∧ ∃ m : gmap string nat,
      (∀ h j, m !! h = Some j → hs !! j = Some h)
      ∧ Forall2 (λ raw lk,
                   ∃ s t, m !! raw.1.1 = Some s ∧ m !! raw.2.1 = Some t
                          ∧ lk = make_link (Link.id lk) s t raw)
                ls (links topo).
Proof.
  unfold generate_topology_json.
  pose proof (node_loop_spec caps facts hs 0 ∅ []) as (Hns & Hother & Hin).
  destruct (fold_left (node_step caps facts) hs (0, ∅, [])) as [[n m] ns].
  simpl in Hns, Hother, Hin.
  destruct (foldM (link_step m) (0, []) ls) as [[k out]|e] eqn:Hloop;
    [|done].
  intros [= <-]. simpl.
  apply link_loop_spec in Hloop as (new & -> & Hids & Hall). simpl.
  split_and!; [done|done|]. exists m. split; [|done].
  intros h j Hm. destruct (decide (h ∈ hs)) as [Hh|Hh].
  - destruct (Hin h Hh) as (j' & Hj' & Hlook). by simplify_eq.
  - rewrite Hother, lookup_empty in Hm; done.
Qed.

Lemma generate_topology_json_total hs ls :
  (∀ raw, raw ∈ ls → raw.1.1 ∈ hs ∧ raw.2.1 ∈ hs) →
  ∃ topo, generate_topology_json hs ls caps facts = Ok topo.
Proof.
  intros Hends. unfold generate_topology_json.
  pose proof (node_loop_spec caps facts hs 0 ∅ []) as (_ & _ & Hin).
  destruct (fold_left (node_step caps facts) hs (0, ∅, [])) as [[n m] ns].
  simpl in Hin.
  destruct (link_loop_total m ls 0 []) as [[k out] ->]; [|by eexists].
  intros raw [H1 H2]%Hends.
  destruct (Hin _ H1) as (? & -> & _), (Hin _ H2) as (? & -> & _). eauto.
Qed.

End Generate.

Lemma get_icon_type_spec (code : string) :
  get_icon_type code
  = if decide (code = "router") then "router"
    else if decide (code = "switch") then "switch"
    else if decide (code = "bridge") then "switch"
    else if decide (code = "station") then "host"
    else "unknown".
Proof.
  repeat (case_decide; [by subst|]).
  unfold get_icon_type, icon_type_map. simpl.
  rewrite !lookup_insert_ne by done. by rewrite lookup_empty.
Qed.

(** C4: for the host set, link list and capability dictionary returned by
    [extract_lldp_details], any enumeration [hs] of the host set and any
    facts dictionary, [generate_topology_json] returns a topology (no host-id
    lookup fails) in which the nodes are the hosts in enumeration order with
    ids [0 .. n-1], node names are not repeated, the links carry ids
    [0 .. m-1] and the endpoint devices of the link list in its order, and
    the source and target of every link are the id and name of a node of
    the topology. *)
Theorem C4_dense_ids_and_link_endpoints
    (lldp : Dict.t LldpEntry)
    (hosts : gset string) (ls : list RawLink) (caps : gmap string string)
    (facts : Dict.t FactsEntry) (hs : list string) :
  extract_lldp_details lldp = Ok (hosts, ls, caps) →
  hs ≡ₚ elements hosts →
  ∃ topo,
    generate_topology_json hs ls caps facts = Ok topo
    ∧ Node.name <$> nodes topo = hs
    ∧ Node.id <$> nodes topo = seq 0 (length hs)
    ∧ NoDup (Node.name <$> nodes topo)
    ∧ Link.id <$> links topo = seq 0 (length ls)
    ∧ (λ lk, (Link.srcDevice lk, Link.tgtDevice lk)) <$> links topo
      = (λ raw, (raw.1.1, raw.2.1)) <$> ls
    ∧ ∀ lk, lk ∈ links topo →
        (∃ n, n ∈ nodes topo
              ∧ Node.id n = Link.source lk ∧ Node.name n = Link.srcDevice lk)
        ∧ (∃ n, n ∈ nodes topo
                ∧ Node.id n = Link.target lk ∧ Node.name n = Link.tgtDevice lk).
Proof.
  intros Hex Hperm.
  pose proof (inv_ends_in_hosts _ _ (extract_result_inv _ _ _ _ Hex)) as Hends.
  simpl in Hends.
  destruct (generate_topology_json_total caps facts hs ls) as [topo Htopo].
  { intros raw [H1 H2]%Hends. rewrite !Hperm, !elem_of_elements. done. }
  exists topo. split; [done|].
  apply generate_topology_json_Ok in Htopo
    as (Hnodes & Hids & m & Hm & Hall).
  assert (Node.name <$> nodes topo = hs) as Hnames
    by (rewrite Hnodes; apply zip_nodes_names).
  split_and!.
  - done.
  - rewrite Hnodes. apply zip_nodes_ids.
  - rewrite Hnames, Hperm. apply NoDup_elements.
  - done.
  - clear -Hall. induction Hall as [|raw lk ls' lks (s & t & _ & _ & ->) _ IH];
      [done|]. rewrite !fmap_cons, IH. done.
  - intros lk [i Hi]%list_elem_of_lookup_1.
    destruct (Forall2_lookup_r _ _ _ _ _ Hall Hi)
      as (raw & _ & s & t & Hs%Hm & Ht%Hm & ->).
    rewrite Hnodes. split.
    + exists (make_node caps facts (0 + s) raw.1.1). split_and!.
      * eapply list_elem_of_lookup_2. by apply zip_nodes_lookup.
      * by rewrite make_node_id.
      * by rewrite make_node_name.
    + exists (make_node caps facts (0 + t) raw.2.1). split_and!.
      * eapply list_elem_of_lookup_2. by apply zip_nodes_lookup.
      * by rewrite make_node_id.
      * by rewrite make_node_name.
Qed.

Lemma C4_dense_ids_and_link_endpoints_witness :
  ∃ topo,
    generate_topology_json
      ["B"; "A"]
      [(("A", "GigabitEthernet0/1"), ("B", "GigabitEthernet0/2"))]
      (list_to_map [("A", "router"); ("B", "switch")])
      [] = Ok topo
    ∧ Node.name <$> nodes topo = ["B"; "A"]
    ∧ Node.id <$> nodes topo = [0; 1]
    ∧ Link.id <$> links topo = [0].
Proof.
  assert (extract_lldp_details lldp_pair_long
          = Ok (list_to_set ["A"; "B"],
                [(("A", "GigabitEthernet0/1"), ("B", "GigabitEthernet0/2"))],
                list_to_map [("A", "router"); ("B", "switch")])) as Hex
    by (vm_compute; reflexivity).
  assert (["B"; "A"] ≡ₚ elements (list_to_set ["A"; "B"] : gset string))
    as Hperm.
  { apply NoDup_Permutation.
    - apply NoDup_cons. split; [|apply NoDup_singleton].
      by rewrite list_elem_of_singleton.
    - apply NoDup_elements.
    - intros x. rewrite elem_of_elements, !elem_of_list_to_set.
      rewrite !elem_of_cons, elem_of_nil. tauto. }
  destruct (C4_dense_ids_and_link_endpoints _ _ _ _ [] _ Hex Hperm)
    as (topo & Htopo & Hnames & Hids & _ & Hlids & _).
  exists topo. by split_and!.
Defined.

(** C6: for every node of a topology built from an extractor result, if the
    capability dictionary holds a code for the node's name then that code is
    the first capability code of a neighbor record naming this host, and the
    icon is [router], [switch], [switch], [host] for the codes [router],
    [switch], [bridge], [station] and [unknown] for any other code;
    if it holds none, the icon is [unknown].  The dictionary holds a code
    for a name exactly when some neighbor record the loops run over names it,
    so a host that nobody names gets the icon [unknown]. *)
Theorem C6_icon_from_neighbor_reports
    (lldp : Dict.t LldpEntry)
    (hosts : gset string) (ls : list RawLink) (caps : gmap string string)
    (facts : Dict.t FactsEntry) (hs : list string) (topo : Topology) :
  extract_lldp_details lldp = Ok (hosts, ls, caps) →
  generate_topology_json hs ls caps facts = Ok topo →
  ∀ n, n ∈ nodes topo →
    match caps !! Node.name n with
    | Some code =>
        (∃ host iface nb,
            reported lldp host iface nb
            ∧ remote_system_name nb = Node.name n
            ∧ head (remote_system_enable_capab nb) = Some code)
        ∧ Node.icon n
          = if decide (code = "router") then "router"
            else if decide (code = "switch") then "switch"
            else if decide (code = "bridge") then "switch"
            else if decide (code = "station") then "host"
            else "unknown"
    | None => Node.icon n = "unknown"
    end
    ∧ (is_Some (caps !! Node.name n)
       ↔ ∃ host iface nb,
           reported lldp host iface nb ∧ remote_system_name nb = Node.name n)
    ∧ ((∀ host iface nb,
           reported lldp host iface nb → remote_system_name nb ≠ Node.name n) →
       Node.icon n = "unknown").
Proof.
  intros Hex Htopo n Hn.
  apply generate_topology_json_Ok in Htopo as (Hnodes & _).
  rewrite Hnodes in Hn. apply zip_nodes_elem in Hn as (i & h & _ & ->).
  rewrite make_node_name, make_node_icon.
  pose proof (inv_caps_from _ _ (extract_result_inv _ _ _ _ Hex) h) as Hfrom.
  simpl in Hfrom.
  assert (is_Some (caps !! h)
          ↔ ∃ host iface nb,
              reported lldp host iface nb ∧ remote_system_name nb = h)
    as Hdom.
  { split.
    - intros [c Hc]. destruct (Hfrom c Hc) as (host & iface & nb & ? & ? & _).
      by exists host, iface, nb.
    - intros (host & iface & nb & Hrep & <-). apply elem_of_dom.
      by eapply extract_result_records. }
  split_and!; [|done|].
  - destruct (caps !! h) as [code|] eqn:Hc; simpl; [|done].
    split; [by apply Hfrom|]. apply get_icon_type_spec.
  - intros Hnone. destruct (caps !! h) as [code|] eqn:Hc; simpl; [|done].
    destruct (Hfrom code eq_refl) as (host & iface & nb & Hrep & Hname & _).
    by destruct (Hnone host iface nb).
Qed.

Lemma C6_icon_from_neighbor_reports_witness :
  let lldp : Dict.t LldpEntry :=
    [("A", LldpDetail [("Gi0/1", [neighbor "B" "Gi0/2" ["bridge"]])])] in
  let node_b :=
    {| Node.id := 1; Node.name := "B"; Node.model := "n/a";
       Node.serial_number := "n/a"; Node.icon := "switch" |} in
  ∃ host iface nb,
    reported lldp host iface nb ∧ remote_system_name nb = Node.name node_b.
Proof.
  intros lldp node_b.
  assert (extract_lldp_details lldp
          = Ok (list_to_set ["A"; "B"],
                [(("A", "Gi0/1"), ("B", "GigabitEthernet0/2"))],
                list_to_map [("B", "bridge")])) as Hex
    by (vm_compute; reflexivity).
  assert (generate_topology_json
            ["A"; "B"] [(("A", "Gi0/1"), ("B", "GigabitEthernet0/2"))]
            (list_to_map [("B", "bridge")]) []
          = Ok {| nodes :=
                    [ {| Node.id := 0; Node.name := "A"; Node.model := "n/a";
                         Node.serial_number := "n/a";
                         Node.icon := "unknown" |};
                      node_b ];
                  links := [make_link 0 0 1
                              (("A", "Gi0/1"), ("B", "GigabitEthernet0/2"))] |})
    as Htopo by (vm_compute; reflexivity).
  assert (node_b ∈ [ {| Node.id := 0; Node.name := "A"; Node.model := "n/a";
                        Node.serial_number := "n/a";
                        Node.icon := "unknown" |};
                     node_b ]) as Hn by (right; left).
  destruct (C6_icon_from_neighbor_reports _ _ _ _ _ _ _ Hex Htopo node_b Hn)
    as (_ & Hiff & _).
  apply Hiff. by eexists.
Defined.

(** ** Further properties of the interface-name normalizer *)

Section NormalizerMore.

Import PyStr.

Lemma in_table_Eth : ("Eth", "Ethernet") ∈ interface_full_name_map.
Proof. by repeat constructor. Qed.
Lemma in_table_Fa : ("Fa", "FastEthernet") ∈ interface_full_name_map.
Proof. by repeat constructor. Qed.
Lemma in_table_Gi : ("Gi", "GigabitEthernet") ∈ interface_full_name_map.
Proof. by repeat constructor. Qed.
Lemma in_table_Te : ("Te", "TenGigabitEthernet") ∈ interface_full_name_map.
Proof. by repeat constructor. Qed.

(** A name that starts with a long form starts with no other short prefix
    than the one of that long form. *)
Lemma long_form_excludes_other_prefixes y k v k' v' :
  (k, v) ∈ interface_full_name_map → (k', v') ∈ interface_full_name_map →
  startswith y v = true → startswith y k' = true → startswith y v' = true.
Proof.
  intros Hkv Hkv' [r ->]%startswith_app.
  apply table_entries in Hkv as [H|[H|[H|H]]];
    apply table_entries in Hkv' as [H'|[H'|[H'|H']]];
    simplify_eq; done.
Qed.

(** The three outcomes of [if_fullname]. *)
Lemma if_fullname_outcome x :
  (∃ k v, (k, v) ∈ interface_full_name_map
          ∧ startswith (if_fullname x) v = true)
  ∨ (if_fullname x = x
     ∧ ∀ k v, (k, v) ∈ interface_full_name_map → startswith x k = false).
Proof.
  destruct (startswith x "Ethernet") eqn:?.
  { left. exists "Eth", "Ethernet". split; [apply in_table_Eth|].
    by rewrite (if_fullname_long x "Eth" "Ethernet") by (apply in_table_Eth || done). }
  destruct (startswith x "Eth") eqn:?.
  { left. exists "Eth", "Ethernet". split; [apply in_table_Eth|].
    rewrite (if_fullname_short x "Eth" "Ethernet") by (apply in_table_Eth || done).
    apply replace_short_starts_long; [apply in_table_Eth|done]. }
  destruct (startswith x "FastEthernet") eqn:?.
  { left. exists "Fa", "FastEthernet". split; [apply in_table_Fa|].
    by rewrite (if_fullname_long x "Fa" "FastEthernet") by (apply in_table_Fa || done). }
  destruct (startswith x "Fa") eqn:?.
  { left. exists "Fa", "FastEthernet". split; [apply in_table_Fa|].
    rewrite (if_fullname_short x "Fa" "FastEthernet") by (apply in_table_Fa || done).
    apply replace_short_starts_long; [apply in_table_Fa|done]. }
  destruct (startswith x "GigabitEthernet") eqn:?.
  { left. exists "Gi", "GigabitEthernet". split; [apply in_table_Gi|].
    by rewrite (if_fullname_long x "Gi" "GigabitEthernet") by (apply in_table_Gi || done). }
  destruct (startswith x "Gi") eqn:?.
  { left. exists "Gi", "GigabitEthernet". split; [apply in_table_Gi|].
    rewrite (if_fullname_short x "Gi" "GigabitEthernet") by (apply in_table_Gi || done).
    apply replace_short_starts_long; [apply in_table_Gi|done]. }
  destruct (startswith x "TenGigabitEthernet") eqn:?.
  { left. exists "Te", "TenGigabitEthernet". split; [apply in_table_Te|].
    by rewrite (if_fullname_long x "Te" "TenGigabitEthernet") by (apply in_table_Te || done). }
  destruct (startswith x "Te") eqn:?.
  { left. exists "Te", "TenGigabitEthernet". split; [apply in_table_Te|].
    rewrite (if_fullname_short x "Te" "TenGigabitEthernet") by (apply in_table_Te || done).
    apply replace_short_starts_long; [apply in_table_Te|done]. }
  right. split.
  - unfold if_fullname, interface_full_name_map. cbn [if_fullname_loop].
    by repeat match goal with H : startswith x _ = false |- _ =>
                rewrite H; clear H end.
  - intros k v H. apply table_entries in H as [H|[H|[H|H]]]; by simplify_eq.
Qed.

Lemma no_short_prefix_no_long_form x k v :
  (k, v) ∈ interface_full_name_map →
  startswith x k = false → startswith x v = false.
Proof.
  intros (c0 & kt & w & -> & -> & _)%table_shape Hk.
  destruct (startswith x (String c0 (kt +:+ w))) eqn:Hv; [|done].
  rewrite <- append_cons in Hv. apply startswith_weaken in Hv. congruence.
Qed.

End NormalizerMore.

(** X1: [if_fullname] is idempotent, and its result never starts with a
    short prefix of the table without starting with the long form of that
    prefix. *)
Theorem X1_if_fullname_canonical (x : string) :
  if_fullname (if_fullname x) = if_fullname x
  ∧ ∀ k v, (k, v) ∈ interface_full_name_map →
           PyStr.startswith (if_fullname x) k = true →
           PyStr.startswith (if_fullname x) v = true.
Proof.
  split; [apply if_fullname_idempotent|].
  intros k v Hkv Hk.
  destruct (if_fullname_outcome x) as [(k' & v' & Hkv' & Hv')|[Hx Hnone]].
  - by eapply long_form_excludes_other_prefixes.
  - rewrite Hx in Hk. rewrite (Hnone k v Hkv) in Hk. done.
Qed.

(** X2: an interface name that starts with none of the short prefixes of the
    table passes through both [if_fullname] and [if_shortname] unchanged. *)
Theorem X2_unknown_prefix_passes_through (x : string) :
  (∀ k v, (k, v) ∈ interface_full_name_map → PyStr.startswith x k = false) →
  if_fullname x = x ∧ if_shortname x = x.
Proof.
  intros Hnone.
  pose proof (Hnone _ _ in_table_Eth) as H1.
  pose proof (Hnone _ _ in_table_Fa) as H2.
  pose proof (Hnone _ _ in_table_Gi) as H3.
  pose proof (Hnone _ _ in_table_Te) as H4.
  pose proof (no_short_prefix_no_long_form x _ _ in_table_Eth H1) as L1.
  pose proof (no_short_prefix_no_long_form x _ _ in_table_Fa H2) as L2.
  pose proof (no_short_prefix_no_long_form x _ _ in_table_Gi H3) as L3.
  pose proof (no_short_prefix_no_long_form x _ _ in_table_Te H4) as L4.
  unfold if_fullname, if_shortname, interface_full_name_map.
  cbn [if_fullname_loop if_shortname_loop].
  by rewrite H1, H2, H3, H4, L1, L2, L3, L4.
Qed.

Lemma X2_unknown_prefix_passes_through_witness :
  if_fullname "xe-0/0/1" = "xe-0/0/1" ∧ if_shortname "xe-0/0/1" = "xe-0/0/1".
Proof.
  apply X2_unknown_prefix_passes_through.
  intros k v H. apply table_entries in H as [H|[H|[H|H]]];
    injection H as -> ->; reflexivity.
Defined.

(** ** Keys of the normalized dictionaries *)

Section DictKeys.

Context {V : Type}.
Implicit Types (d : list (string * V)) (k : string) (v : V).

Lemma dict_set_keys d k v :
  (Dict.set d k v).*1 = if decide (k ∈ d.*1) then d.*1 else d.*1 ++ [k].
Proof.
  induction d as [|[k' v'] d IH]; cbn [Dict.set].
  - case_decide as Hin; [by apply elem_of_nil in Hin|done].
  - destruct (decide (k' = k)) as [->|Hne]; rewrite !fmap_cons; cbn [fst].
    + destruct (decide (k ∈ k :: d.*1)) as [_|Hin]; [done|].
      destruct Hin. by left.
    + rewrite IH.
      destruct (decide (k ∈ d.*1)) as [Hin|Hin],
               (decide (k ∈ k' :: d.*1)) as [Hin'|Hin']; try done.
      * destruct Hin'. by right.
      * apply elem_of_cons in Hin' as [?|?]; by simplify_eq.
Qed.

Lemma dict_set_fresh d k v : k ∉ d.*1 → Dict.set d k v = d ++ [(k, v)].
Proof.
  induction d as [|[k' v'] d IH]; simpl; [done|].
  intros [Hne Hin]%not_elem_of_cons.
  rewrite decide_False by done. by rewrite IH.
Qed.

Lemma dict_get_Some_elem d k v : Dict.get d k = Some v → (k, v) ∈ d.
Proof.
  induction d as [|[k' v'] d IH]; simpl; [done|].
  destruct (decide (k' = k)) as [->|Hne].
  - intros [= ->]. by left.
  - intros ?. right. by apply IH.
Qed.

Lemma dict_elem_get d k v : NoDup d.*1 → (k, v) ∈ d → Dict.get d k = Some v.
Proof.
  induction d as [|[k' v'] d IH]; simpl.
  - by intros _ ?%elem_of_nil.
  - intros [Hk' Hnd]%NoDup_cons [Heq|Hin]%elem_of_cons.
    + simplify_eq. by rewrite decide_True.
    + destruct (decide (k' = k)) as [->|Hne]; [|by apply IH].
      destruct Hk'. apply list_elem_of_fmap. by exists (k, v).
Qed.

End DictKeys.

Section NormalizeKeys.

Implicit Types (job : list (string * PollOutcome)).

Lemma normalize_step_eq acc it :
  normalize_step acc it
  = (Dict.set acc.1 (stored_key it) (stored_lldp it.2),
     Dict.set acc.2 (stored_key it) (stored_facts it.2)).
Proof. by destruct acc, it as [device [|facts lldp]]. Qed.

Lemma normalize_fold_keys job
    (l : list (string * LldpEntry)) (f : list (string * FactsEntry)) :
  l.*1 = f.*1 → NoDup l.*1 →
  let out := fold_left normalize_step job (l, f) in
  out.1.*1 = out.2.*1
  ∧ NoDup out.1.*1
  ∧ ∀ k, k ∈ out.1.*1 ↔ k ∈ l.*1 ∨ ∃ it, it ∈ job ∧ stored_key it = k.
Proof.
  revert l f. induction job as [|it job IH]; intros l f Heq Hnd;
    cbn [fold_left].
  - cbn [fst snd]. split_and!; [done|done|]. intros k. split; [by left|].
    intros [?|(it & ?%elem_of_nil & _)]; done.
  - rewrite normalize_step_eq. cbn [fst snd].
    destruct (IH (Dict.set l (stored_key it) (stored_lldp it.2))
                 (Dict.set f (stored_key it) (stored_facts it.2)))
      as (Heq' & Hnd' & Hkeys).
    + by rewrite !dict_set_keys, Heq.
    + rewrite dict_set_keys.
      destruct (decide (stored_key it ∈ l.*1)); [done|].
      apply NoDup_app. split_and!; [done| |apply NoDup_singleton].
      intros k ? Hk%list_elem_of_singleton. by subst k.
    + split_and!; [done|done|]. intros k. rewrite Hkeys.
      rewrite dict_set_keys. split.
      * intros [Hk|(it' & Hit' & <-)].
        -- destruct (decide (stored_key it ∈ l.*1)); [by left|].
           apply elem_of_app in Hk as [?|Hk%list_elem_of_singleton];
             [by left|]. right. exists it. split; [by left|done].
        -- right. exists it'. split; [by right|done].
      * intros [Hk|(it' & [->|Hit']%elem_of_cons & <-)].
        -- left. destruct (decide (stored_key it ∈ l.*1)); [done|].
           apply elem_of_app. by left.
        -- left. destruct (decide (stored_key it ∈ l.*1)); [done|].
           apply elem_of_app. right. by apply list_elem_of_singleton.
        -- right. by exists it'.
Qed.

(** The last write under a key decides both bindings. *)
Lemma normalize_result_last job pre it post :
  job = pre ++ it :: post →
  (∀ it', it' ∈ post → stored_key it' ≠ stored_key it) →
  Dict.get (normalize_result job).1 (stored_key it) = Some (stored_lldp it.2)
  ∧ Dict.get (normalize_result job).2 (stored_key it)
    = Some (stored_facts it.2).
Proof.
  intros -> Hpost. unfold normalize_result.
  rewrite fold_left_app. cbn [fold_left].
  destruct (normalize_steps_keep post
              (normalize_step (fold_left normalize_step pre ([], [])) it)
              (stored_key it) Hpost) as [-> ->].
  rewrite normalize_step_eq. cbn [fst snd]. by rewrite !dict_get_set_eq.
Qed.

Lemma normalize_result_key_iff job k :
  k ∈ (normalize_result job).1.*1 ↔ ∃ it, it ∈ job ∧ stored_key it = k.
Proof.
  destruct (normalize_fold_keys job [] []) as (_ & _ & Hkeys);
    [done|apply NoDup_nil_2|].
  unfold normalize_result. rewrite Hkeys. simpl. rewrite elem_of_nil. tauto.
Qed.

End NormalizeKeys.

(** X3: the two dictionaries returned by [normalize_result] have the same
    keys in the same order, no key twice, and their keys are exactly the
    identities the poll results are stored under. *)
Theorem X3_normalize_result_keys (job : Dict.t PollOutcome) :
  (normalize_result job).1.*1 = (normalize_result job).2.*1
  ∧ NoDup (normalize_result job).1.*1
  ∧ ∀ k, k ∈ (normalize_result job).1.*1
         ↔ ∃ it, it ∈ job ∧ stored_key it = k.
Proof.
  destruct (normalize_fold_keys job [] []) as (Heq & Hnd & Hkeys);
    [done|apply NoDup_nil_2|].
  split_and!; [done|done|]. intros k.
  unfold normalize_result. rewrite Hkeys. simpl. rewrite elem_of_nil. tauto.
Qed.

(** X4: when no two poll results are stored under the same identity,
    [normalize_result] keeps every device, in iteration order: entry [i] of
    each returned dictionary binds the identity of device [i] to its LLDP
    detail, respectively its facts (the empty list for a failed device). *)
Theorem X4_normalize_result_without_collision (job : Dict.t PollOutcome) :
  NoDup (stored_key <$> job) →
  normalize_result job
  = ((λ it, (stored_key it, stored_lldp it.2)) <$> job,
     (λ it, (stored_key it, stored_facts it.2)) <$> job).
Proof.
  unfold normalize_result.
  induction job as [|it job IH] using rev_ind; [done|].
  rewrite fmap_app. intros [Hjob [Hfresh _]]%NoDup_app.
  rewrite fold_left_app. cbn [fold_left]. rewrite (IH Hjob).
  rewrite normalize_step_eq. cbn [fst snd].
  assert (stored_key it ∉ stored_key <$> job) as Hnew.
  { intros Hin. apply (Hfresh _ Hin). by left. }
  rewrite !dict_set_fresh, !fmap_app; [done|..];
    by rewrite <- list_fmap_compose.
Qed.

Lemma X4_normalize_result_without_collision_witness :
  let sw :=
    {| Facts.fqdn := EmptyString; Facts.hostname := "sw1";
       Facts.model := Some "X"; Facts.serial_number := None |} in
  normalize_result [("10.0.0.1", Polled sw []); ("10.0.0.2", Failed)]
  = ([("sw1", LldpDetail []); ("10.0.0.2", LldpEmptyList)],
     [("sw1", FactsOf sw); ("10.0.0.2", FactsEmptyList)]).
Proof.
  intros sw.
  apply (X4_normalize_result_without_collision
           [("10.0.0.1", Polled sw []); ("10.0.0.2", Failed)]).
  apply NoDup_cons. split; [|apply NoDup_singleton].
  by rewrite list_elem_of_singleton.
Defined.

(** ** The extractor as folds over the neighbor records *)

Section ExtractorFolds.

Implicit Types (st : ExtractState) (nb : NeighborRecord).
Implicit Types (host iface : string) (lldp : list (string * LldpEntry)).
Implicit Types (r : string * string * NeighborRecord).

Lemma folds_from_nil st : folds_from st [] st.
Proof.
  unfold folds_from. simpl. split_and!; [done|done|].
  by rewrite (right_id_L ∅ (∪)).
Qed.

Lemma folds_from_app st1 st2 st3 rs rs' :
  folds_from st1 rs st2 → folds_from st2 rs' st3 →
  folds_from st1 (rs ++ rs') st3.
Proof.
  intros (Hl & Hc & Hh) (Hl' & Hc' & Hh'). unfold folds_from.
  rewrite !fold_left_app, <- Hl, <- Hc, Hl', Hc', Hh', Hh.
  split_and!; [done|done|].
  by rewrite fmap_app, list_to_set_app_L, (assoc_L (∪)).
Qed.

Lemma neighbor_step_folds host iface st nb st' :
  neighbor_step host iface st nb = Ok st' →
  folds_from st
    ((λ nb, (host, iface, nb))
       <$> filter (λ nb, remote_system_name nb ≠ EmptyString) [nb])
    st'.
Proof.
  intros [[Hname ->]|(Hname & cap & Hcap & Hh & Hc & Hl)]%neighbor_step_Ok.
  - rewrite filter_cons_False by (by intros ?). apply folds_from_nil.
  - rewrite filter_cons_True by done. rewrite filter_nil.
    unfold folds_from. cbn [fmap list_fmap fold_left].
    unfold record_link, record_cap, record_candidate, record_name.
    cbn [fst snd]. split_and!.
    + destruct Hl as [[Hin ->]|[Hin ->]]; [by rewrite decide_True|].
      by rewrite decide_False.
    + rewrite Hc. destruct (remote_system_enable_capab nb); by simplify_eq/=.
    + rewrite Hh. cbn [list_to_set foldr].
      by rewrite (right_id_L ∅ (∪)), (comm_L (∪)).
Qed.

Lemma neighbor_loop_folds host iface nbs st st' :
  foldM (neighbor_step host iface) st nbs = Ok st' →
  folds_from st
    ((λ nb, (host, iface, nb))
       <$> filter (λ nb, remote_system_name nb ≠ EmptyString) nbs)
    st'.
Proof.
  revert st. induction nbs as [|nb nbs IH]; intros st Hloop.
  - injection Hloop as <-. apply folds_from_nil.
  - rewrite foldM_cons in Hloop.
    destruct (neighbor_step host iface st nb) as [st1|e] eqn:Hstep; [|done].
    change (nb :: nbs) with ([nb] ++ nbs).
    rewrite filter_app, fmap_app.
    eapply folds_from_app; [by apply neighbor_step_folds|by apply IH].
Qed.

Lemma interface_loop_folds host d st st' :
  foldM (interface_step host) st d = Ok st' →
  folds_from st
    (entry ← d;
     (λ nb, (host, entry.1, nb))
       <$> filter (λ nb, remote_system_name nb ≠ EmptyString) entry.2)
    st'.
Proof.
  revert st. induction d as [|entry d IH]; intros st Hloop.
  - injection Hloop as <-. apply folds_from_nil.
  - rewrite foldM_cons in Hloop.
    destruct (interface_step host st entry) as [st1|e] eqn:Hstep; [|done].
    rewrite bind_cons.
    eapply folds_from_app; [by apply neighbor_loop_folds|by apply IH].
Qed.

End ExtractorFolds.

Section ExtractorFoldsTop.

Implicit Types (st : ExtractState) (lldp : list (string * LldpEntry)).

Lemma host_step_folds st item st' :
  host_step st item = Ok st' →
  folds_from
    {| discovered_hosts := discovered_hosts st ∪ list_to_set (host_keys [item]);
       lldp_capabilities_dict := lldp_capabilities_dict st;
       global_interconnections := global_interconnections st |}
    (host_records item) st'.
Proof.
  destruct item as [host entry]. unfold host_step, host_records, host_keys.
  cbn [fst snd fmap list_fmap].
  destruct (PyStr.falsy host) eqn:Hhost.
  - apply falsy_true in Hhost as ->. intros [= <-].
    rewrite filter_cons_False by (by intros ?). rewrite filter_nil.
    unfold folds_from. cbn. split_and!; [done|done|].
    by rewrite !(right_id_L ∅ (∪)).
  - apply falsy_false in Hhost.
    rewrite filter_cons_True by done. rewrite filter_nil.
    cbn [list_to_set foldr]. rewrite (right_id_L ∅ (∪)), (comm_L (∪)).
    destruct (lldp_falsy entry) eqn:Hdata.
    + intros [= <-].
      assert (lldp_items entry = []) as -> by by destruct entry as [|[|??]].
      apply folds_from_nil.
    + apply interface_loop_folds.
Qed.

Lemma host_loop_folds lldp st st' :
  foldM host_step st lldp = Ok st' →
  folds_from
    {| discovered_hosts := discovered_hosts st ∪ list_to_set (host_keys lldp);
       lldp_capabilities_dict := lldp_capabilities_dict st;
       global_interconnections := global_interconnections st |}
    (neighbor_records lldp) st'.
Proof.
  revert st. induction lldp as [|item lldp IH]; intros st Hloop.
  - injection Hloop as <-. unfold folds_from. cbn.
    split_and!; [done|done|]. by rewrite !(right_id_L ∅ (∪)).
  - rewrite foldM_cons in Hloop.
    destruct (host_step st item) as [st1|e] eqn:Hstep; [|done].
    apply host_step_folds in Hstep as (Hl & Hc & Hh).
    apply IH in Hloop as (Hl' & Hc' & Hh').
    unfold neighbor_records. rewrite bind_cons.
    unfold folds_from in *. cbn [discovered_hosts lldp_capabilities_dict
                                 global_interconnections] in *.
    rewrite !fold_left_app, <- Hl, <- Hc, Hl', Hc', Hh', Hh.
    split_and!; [done|done|].
    change (item :: lldp) with ([item] ++ lldp).
    unfold host_keys. rewrite !fmap_app, filter_app, !list_to_set_app_L.
    fold (host_keys [item]) (host_keys lldp) (neighbor_records lldp).
    rewrite <- !(assoc_L (∪)). f_equal. f_equal.
    rewrite !(assoc_L (∪)). f_equal. apply (comm_L (∪)).
Qed.

Lemma extract_folds lldp hosts ls caps :
  extract_lldp_details lldp = Ok (hosts, ls, caps) →
  ls = fold_left record_link (neighbor_records lldp) []
  ∧ caps = fold_left record_cap (neighbor_records lldp) ∅
  ∧ hosts = list_to_set (host_keys lldp)
            ∪ list_to_set (record_name <$> neighbor_records lldp).
Proof.
  intros (Hl & Hc & Hh)%extract_Ok%host_loop_folds.
  cbn in Hl, Hc, Hh. split_and!; [done|done|].
  by rewrite Hh, (left_id_L ∅ (∪)).
Qed.

(** The records of [neighbor_records] are the reported ones. *)
Lemma elem_of_neighbor_records lldp host iface nb :
  (host, iface, nb) ∈ neighbor_records lldp ↔ reported lldp host iface nb.
Proof.
  unfold neighbor_records, reported. rewrite list_elem_of_bind. split.
  - intros ([h entry] & Hr & Hitem). unfold host_records in Hr.
    cbn [fst snd] in Hr.
    destruct (PyStr.falsy h) eqn:Hh; [by apply elem_of_nil in Hr|].
    apply falsy_false in Hh.
    apply list_elem_of_bind in Hr as ([i nbs] & Hr & Hentry).
    apply list_elem_of_fmap in Hr as (nb' & [= -> -> ->] & Hnb).
    apply list_elem_of_filter in Hnb as [Hname Hnb].
    destruct entry as [|d]; [by apply elem_of_nil in Hentry|].
    split_and!; [done|done|]. by exists d, nbs.
  - intros (Hhost & Hname & d & nbs & Hitem & Hentry & Hnb).
    exists (host, LldpDetail d). split; [|done].
    unfold host_records. cbn [fst snd lldp_items].
    apply falsy_false in Hhost. rewrite Hhost.
    apply list_elem_of_bind. exists (iface, nbs). split; [|done].
    apply list_elem_of_fmap. exists nb. split; [done|].
    by apply list_elem_of_filter.
Qed.

End ExtractorFoldsTop.

(** ** When the extractor raises *)

Section ExtractorErrors.

Implicit Types (st : ExtractState) (nb : NeighborRecord).
Implicit Types (host iface : string) (lldp : list (string * LldpEntry)).

Lemma foldM_Err {S A : Type} (f : S → A → result S) l s e :
  foldM f s l = Err e → ∃ s1 x, x ∈ l ∧ f s1 x = Err e.
Proof.
  revert s. induction l as [|x l IH]; intros s Hloop; [done|].
  rewrite foldM_cons in Hloop. destruct (f s x) as [s1|e'] eqn:Hstep.
  - destruct (IH _ Hloop) as (s2 & y & Hy & Hfy).
    exists s2, y. split; [by right|done].
  - injection Hloop as ->. exists s, x. split; [by left|done].
Qed.

Lemma neighbor_step_Err host iface st nb e :
  neighbor_step host iface st nb = Err e →
  e = IndexError
  ∧ remote_system_name nb ≠ EmptyString
  ∧ remote_system_enable_capab nb = [].
Proof.
  unfold neighbor_step.
  destruct (PyStr.falsy (remote_system_name nb)) eqn:Hname; [done|].
  apply falsy_false in Hname.
  destruct (remote_system_enable_capab nb) as [|cap caps].
  - by intros [= <-].
  - cbn [index0 mbind result_bind]. by case_match.
Qed.

Lemma extract_Err lldp e :
  extract_lldp_details lldp = Err e →
  e = IndexError
  ∧ ∃ host iface nb,
      reported lldp host iface nb ∧ remote_system_enable_capab nb = [].
Proof.
  unfold extract_lldp_details.
  destruct (foldM host_step extract_init lldp) as [st|e'] eqn:Hloop; [done|].
  intros [= ->].
  apply foldM_Err in Hloop as (s1 & [host entry] & Hitem & Hstep).
  unfold host_step in Hstep.
  destruct (PyStr.falsy host) eqn:Hhost; [done|]. apply falsy_false in Hhost.
  destruct (lldp_falsy entry); [done|].
  apply foldM_Err in Hstep as (s2 & [iface nbs] & Hentry & Hstep).
  apply foldM_Err in Hstep as (s3 & nb & Hnb & Hstep).
  apply neighbor_step_Err in Hstep as (-> & Hname & Hcap).
  split; [done|]. exists host, iface, nb. split; [|done].
  destruct entry as [|d]; [by apply elem_of_nil in Hentry|].
  split_and!; [done|done|]. by exists d, nbs.
Qed.

(** Every reported record went through the innermost loop body. *)
Lemma extract_visits lldp out host iface nb :
  extract_lldp_details lldp = Ok out →
  reported lldp host iface nb →
  ∃ s1 s2, neighbor_step host iface s1 nb = Ok s2.
Proof.
  destruct out as [[hosts ls] caps].
  intros Hex%extract_Ok (Hhost & Hname & d & nbs & Hlldp & Hd & Hnb).
  destruct (foldM_visits host_step grows _ _ _ _
              (λ s x s' _, host_step_grows s x s') Hex Hlldp)
    as (s1 & s2 & _ & Hstep & _).
  unfold host_step in Hstep.
  apply falsy_false in Hhost. rewrite Hhost in Hstep.
  assert (lldp_falsy (LldpDetail d) = false) as Hdata
    by (destruct d; [by apply elem_of_nil in Hd|done]).
  rewrite Hdata in Hstep. cbn [lldp_items] in Hstep.
  destruct (foldM_visits (interface_step host) grows _ _ _ _
              (λ s x s' _, interface_step_grows host s x s') Hstep Hd)
    as (s3 & s4 & _ & Hstep' & _).
  destruct (foldM_visits (neighbor_step host iface) grows _ _ _ _
              (λ s x s' _, neighbor_step_grows host iface s x s') Hstep' Hnb)
    as (s5 & s6 & _ & Hstep'' & _).
  by exists s5, s6.
Qed.

End ExtractorErrors.

(** X5: [extract_lldp_details] returns exactly when every neighbor record it
    runs over (non-empty host key, non-empty system name) has a non-empty
    capability list; when it raises, the exception is [IndexError]. *)
Theorem X5_extract_raises_only_on_empty_capabilities
    (lldp : Dict.t LldpEntry) :
  ((∃ out, extract_lldp_details lldp = Ok out)
   ↔ ∀ host iface nb,
       reported lldp host iface nb → remote_system_enable_capab nb ≠ [])
  ∧ ∀ e, extract_lldp_details lldp = Err e → e = IndexError.
Proof.
  split; [split|].
  - intros [out Hout] host iface nb Hrep Hcap.
    destruct (extract_visits _ _ _ _ _ Hout Hrep) as (s1 & s2 & Hstep).
    apply neighbor_step_Ok in Hstep
      as [[Hname _]|(_ & cap & Hhead & _)].
    + by destruct Hrep as (_ & ? & _).
    + by rewrite Hcap in Hhead.
  - apply extract_total.
  - by intros e [-> _]%extract_Err.
Qed.

(** X6: the host set returned by [extract_lldp_details] holds exactly the
    non-empty keys of its input and the system names of the neighbor records
    it runs over. *)
Theorem X6_discovered_hosts_exact
    (lldp : Dict.t LldpEntry)
    (hosts : gset string) (ls : list RawLink) (caps : gmap string string) :
  extract_lldp_details lldp = Ok (hosts, ls, caps) →
  ∀ h, h ∈ hosts
       ↔ (h ≠ EmptyString ∧ ∃ entry, (h, entry) ∈ lldp)
         ∨ ∃ host iface nb,
             reported lldp host iface nb ∧ remote_system_name nb = h.
Proof.
  intros (_ & _ & ->)%extract_folds h.
  rewrite elem_of_union, !elem_of_list_to_set. unfold host_keys.
  rewrite list_elem_of_filter, !list_elem_of_fmap. split.
  - intros [[Hh ([k entry] & -> & Hitem)]|([[host iface] nb] & -> & Hr)].
    + left. split; [done|]. by exists entry.
    + right. exists host, iface, nb. split; [|done].
      by apply elem_of_neighbor_records.
  - intros [[Hh [entry Hitem]]|(host & iface & nb & Hr & <-)].
    + left. split; [done|]. by exists (h, entry).
    + right. exists (host, iface, nb). split; [done|].
      by apply elem_of_neighbor_records.
Qed.

Lemma X6_discovered_hosts_exact_witness :
  "B" ∈ (list_to_set ["A"; "B"] : gset string)
  ↔ ("B" ≠ EmptyString ∧ ∃ entry, ("B", entry) ∈ lldp_pair_long)
    ∨ ∃ host iface nb,
        reported lldp_pair_long host iface nb ∧ remote_system_name nb = "B".
Proof.
  assert (extract_lldp_details lldp_pair_long
          = Ok (list_to_set ["A"; "B"],
                [(("A", "GigabitEthernet0/1"), ("B", "GigabitEthernet0/2"))],
                list_to_map [("A", "router"); ("B", "switch")])) as Hex
    by (vm_compute; reflexivity).
  apply (X6_discovered_hosts_exact _ _ _ _ Hex "B").
Defined.

(** ** Order of the links and last capability seen *)

Section RecordFolds.

Implicit Types (r : string * string * NeighborRecord).
Implicit Types (rs : list (string * string * NeighborRecord)).
Implicit Types (acc : list RawLink) (m : gmap string string).

Lemma record_link_fold rs acc :
  ∃ new, fold_left record_link rs acc = acc ++ new
         ∧ new `sublist_of` (record_candidate <$> rs).
Proof.
  revert acc. induction rs as [|r rs IH]; intros acc.
  - exists []. by rewrite app_nil_r.
  - cbn [fold_left]. destruct (IH (record_link acc r)) as (new & -> & Hsub).
    unfold record_link. rewrite fmap_cons.
    destruct (decide (has_link acc (record_candidate r))).
    + exists new. split; [done|]. by apply sublist_cons.
    + exists (record_candidate r :: new). split; [by rewrite <- app_assoc|].
      by apply sublist_skip.
Qed.

Lemma record_link_fold_first pre r post :
  (∀ r', r' ∈ pre →
         ¬ same_link (record_candidate r') (record_candidate r)) →
  record_candidate r ∈ fold_left record_link (pre ++ r :: post) [].
Proof.
  intros Hfirst. rewrite fold_left_app. cbn [fold_left].
  destruct (record_link_fold pre []) as (new & -> & Hsub). simpl.
  destruct (record_link_fold post (record_link new r)) as (new' & -> & _).
  apply elem_of_app. left. unfold record_link.
  destruct (decide (has_link new (record_candidate r))) as [Hin|_].
  - apply has_link_alt in Hin as (l' & Hl' & Hsame).
    apply (sublist_subseteq _ _ Hsub), list_elem_of_fmap in Hl'
      as (r' & -> & Hr').
    by destruct (Hfirst r' Hr').
  - apply elem_of_app. right. by left.
Qed.

Lemma record_cap_fold_other rs m k :
  (∀ r, r ∈ rs → record_name r ≠ k) →
  fold_left record_cap rs m !! k = m !! k.
Proof.
  revert m. induction rs as [|r rs IH]; intros m Hrs; [done|].
  cbn [fold_left]. rewrite IH by (intros r' ?; apply Hrs; by right).
  unfold record_cap. destruct (remote_system_enable_capab r.2); [done|].
  apply lookup_insert_ne. apply Hrs. by left.
Qed.

End RecordFolds.

(** X7: the link list returned by [extract_lldp_details] keeps the
    iteration order of the neighbor records it comes from (it is a sublist of
    their candidate tuples), and a link is stored with the orientation of the
    first record that reports its endpoint pair. *)
Theorem X7_links_in_report_order
    (lldp : Dict.t LldpEntry)
    (hosts : gset string) (ls : list RawLink) (caps : gmap string string) :
  extract_lldp_details lldp = Ok (hosts, ls, caps) →
  ls `sublist_of` (record_candidate <$> neighbor_records lldp)
  ∧ ∀ pre r post,
      neighbor_records lldp = pre ++ r :: post →
      (∀ r', r' ∈ pre →
             ¬ same_link (record_candidate r') (record_candidate r)) →
      record_candidate r ∈ ls.
Proof.
  intros (-> & _ & _)%extract_folds. split.
  - by destruct (record_link_fold (neighbor_records lldp) [])
      as (new & -> & Hsub).
  - intros pre r post -> Hfirst. by apply record_link_fold_first.
Qed.

Lemma X7_links_in_report_order_witness :
  [(("A", "GigabitEthernet0/1"), ("B", "GigabitEthernet0/2"))]
    `sublist_of` (record_candidate <$> neighbor_records lldp_pair_long).
Proof.
  assert (extract_lldp_details lldp_pair_long
          = Ok (list_to_set ["A"; "B"],
                [(("A", "GigabitEthernet0/1"), ("B", "GigabitEthernet0/2"))],
                list_to_map [("A", "router"); ("B", "switch")])) as Hex
    by (vm_compute; reflexivity).
  apply (X7_links_in_report_order _ _ _ _ Hex).
Defined.

(** X8: the capability recorded for a device is the first capability code
    of the last neighbor record, in iteration order, that names it. *)
Theorem X8_capability_last_report_wins
    (lldp : Dict.t LldpEntry)
    (hosts : gset string) (ls : list RawLink) (caps : gmap string string)
    (pre post : list (string * string * NeighborRecord))
    (r : string * string * NeighborRecord) :
  extract_lldp_details lldp = Ok (hosts, ls, caps) →
  neighbor_records lldp = pre ++ r :: post →
  (∀ r', r' ∈ post → record_name r' ≠ record_name r) →
  caps !! record_name r = head (remote_system_enable_capab r.2).
Proof.
  intros Hex Hrs Hpost.
  assert (remote_system_enable_capab r.2 ≠ []) as Hcap.
  { destruct r as [[host iface] nb].
    assert (reported lldp host iface nb) as Hrep.
    { apply elem_of_neighbor_records. rewrite Hrs.
      apply elem_of_app. right. by left. }
    destruct (extract_visits _ _ _ _ _ Hex Hrep) as (s1 & s2 & Hstep).
    apply neighbor_step_Ok in Hstep as [[Hname _]|(_ & cap & Hhead & _)].
    - by destruct Hrep as (_ & ? & _).
    - simpl. by destruct (remote_system_enable_capab nb). }
  apply extract_folds in Hex as (_ & -> & _).
  rewrite Hrs, fold_left_app. cbn [fold_left].
  rewrite record_cap_fold_other by done.
  unfold record_cap, record_name.
  destruct (remote_system_enable_capab r.2) as [|cap rest]; [done|].
  by rewrite lookup_insert_eq.
Qed.

Lemma X8_capability_last_report_wins_witness :
  (list_to_map [("A", "router"); ("B", "switch")] : gmap string string)
    !! "A" = Some "router".
Proof.
  assert (extract_lldp_details lldp_pair_long
          = Ok (list_to_set ["A"; "B"],
                [(("A", "GigabitEthernet0/1"), ("B", "GigabitEthernet0/2"))],
                list_to_map [("A", "router"); ("B", "switch")])) as Hex
    by (vm_compute; reflexivity).
  apply (X8_capability_last_report_wins _ _ _ _
           [("A", "GigabitEthernet0/1", neighbor "B" "Gi0/2" ["switch"])]
           []
           ("B", "GigabitEthernet0/2", neighbor "A" "Gi0/1" ["router"])
           Hex).
  - reflexivity.
  - intros r' Hr'. by apply elem_of_nil in Hr'.
Defined.

(** ** Further properties of the topology builder *)

Section BuilderMore.

Variables (caps : gmap string string) (facts : Dict.t FactsEntry).

Lemma link_step_Err m acc raw e :
  link_step m acc raw = Err e → e = KeyError.
Proof.
  destruct acc as [k out]. unfold link_step, host_id_lookup.
  destruct (m !! raw.1.1); [|by intros [= <-]].
  destruct (m !! raw.2.1); [done|by intros [= <-]].
Qed.

Lemma generate_topology_json_Err hs ls e :
  generate_topology_json hs ls caps facts = Err e → e = KeyError.
Proof.
  unfold generate_topology_json.
  destruct (fold_left (node_step caps facts) hs (0, ∅, [])) as [[n m] ns].
  destruct (foldM (link_step m) (0, []) ls) as [[k out]|e'] eqn:Hloop;
    [done|].
  intros [= ->].
  apply foldM_Err in Hloop as (acc & raw & _ & Hstep).
  by eapply link_step_Err.
Qed.

Lemma make_node_facts i h :
  match Dict.get facts h with
  | Some (FactsOf f) =>
      Node.model (make_node caps facts i h) = default "n/a" (Facts.model f)
      ∧ Node.serial_number (make_node caps facts i h)
        = default "n/a" (Facts.serial_number f)
  | _ =>
      Node.model (make_node caps facts i h) = "n/a"
      ∧ Node.serial_number (make_node caps facts i h) = "n/a"
  end.
Proof. unfold make_node. by repeat case_match. Qed.

End BuilderMore.

(** X9: [generate_topology_json] returns exactly when both endpoint devices
    of every link are among the enumerated hosts; when it raises, the
    exception is the [KeyError] of the [host_id_map] lookup. *)
Theorem X9_generate_raises_only_on_unknown_endpoint
    (hs : list string) (ls : list RawLink)
    (caps : gmap string string) (facts : Dict.t FactsEntry) :
  ((∃ topo, generate_topology_json hs ls caps facts = Ok topo)
   ↔ ∀ raw, raw ∈ ls → raw.1.1 ∈ hs ∧ raw.2.1 ∈ hs)
  ∧ ∀ e, generate_topology_json hs ls caps facts = Err e → e = KeyError.
Proof.
  split; [split|].
  - intros [topo (_ & _ & m & Hm & Hall)%generate_topology_json_Ok].
    intros raw [i Hi]%list_elem_of_lookup_1.
    destruct (Forall2_lookup_l _ _ _ _ _ Hall Hi)
      as (lk & _ & s & t & Hs%Hm & Ht%Hm & _).
    split; by eapply list_elem_of_lookup_2.
  - apply generate_topology_json_total.
  - apply generate_topology_json_Err.
Qed.

(** X10: in a built topology the [model] and [serial_number] of a node are
    those of the facts stored for its name, each replaced by ['n/a'] when the
    field is missing; a node without a facts entry, or with the empty list
    stored for a failed device, gets ['n/a'] for both. *)
Theorem X10_node_facts_or_placeholder
    (hs : list string) (ls : list RawLink)
    (caps : gmap string string) (facts : Dict.t FactsEntry) (topo : Topology) :
  generate_topology_json hs ls caps facts = Ok topo →
  ∀ n, n ∈ nodes topo →
    match Dict.get facts (Node.name n) with
    | Some (FactsOf f) =>
        Node.model n = default "n/a" (Facts.model f)
        ∧ Node.serial_number n = default "n/a" (Facts.serial_number f)
    | _ => Node.model n = "n/a" ∧ Node.serial_number n = "n/a"
    end.
Proof.
  intros (Hnodes & _)%generate_topology_json_Ok n Hn.
  rewrite Hnodes in Hn. apply zip_nodes_elem in Hn as (i & h & _ & ->).
  rewrite make_node_name. apply make_node_facts.
Qed.

Lemma X10_node_facts_or_placeholder_witness :
  let node_a :=
    {| Node.id := 0; Node.name := "A"; Node.model := "X";
       Node.serial_number := "n/a"; Node.icon := "unknown" |} in
  Node.model node_a = "X" ∧ Node.serial_number node_a = "n/a".
Proof.
  intros node_a.
  set (f := {| Facts.fqdn := "A"; Facts.hostname := EmptyString;
               Facts.model := Some "X"; Facts.serial_number := None |}).
  assert (generate_topology_json ["A"] [] ∅ [("A", FactsOf f)]
          = Ok {| nodes := [node_a]; links := [] |}) as Htopo
    by (vm_compute; reflexivity).
  apply (X10_node_facts_or_placeholder _ _ _ _ _ Htopo node_a). by left.
Defined.

(** X11: the links of a built topology are the links of the input list in
    the same order, with both interface names rendered by [if_shortname], and
    the [source] and [target] of a link are the positions of its two devices
    in the host enumeration. *)
Theorem X11_links_rendered_in_order
    (hs : list string) (ls : list RawLink)
    (caps : gmap string string) (facts : Dict.t FactsEntry) (topo : Topology) :
  generate_topology_json hs ls caps facts = Ok topo →
  link_key <$> links topo = short_form_link <$> ls
  ∧ ∀ lk, lk ∈ links topo →
      hs !! Link.source lk = Some (Link.srcDevice lk)
      ∧ hs !! Link.target lk = Some (Link.tgtDevice lk).
Proof.
  intros (_ & _ & m & Hm & Hall)%generate_topology_json_Ok. split.
  - clear Hm. induction Hall as [|raw lk ls' lks (s & t & _ & _ & ->) _ IH];
      [done|]. rewrite !fmap_cons, IH. done.
  - intros lk [i Hi]%list_elem_of_lookup_1.
    destruct (Forall2_lookup_r _ _ _ _ _ Hall Hi)
      as (raw & _ & s & t & Hs%Hm & Ht%Hm & ->).
    done.
Qed.

Lemma X11_links_rendered_in_order_witness :
  link_key <$> [make_link 0 0 1
                  (("A", "GigabitEthernet0/1"), ("B", "GigabitEthernet0/2"))]
  = [(("A", "Gi0/1"), ("B", "Gi0/2"))].
Proof.
  assert (generate_topology_json
            ["A"; "B"]
            [(("A", "GigabitEthernet0/1"), ("B", "GigabitEthernet0/2"))] ∅ []
          = Ok {| nodes := [make_node ∅ [] 0 "A"; make_node ∅ [] 1 "B"];
                  links := [make_link 0 0 1
                              (("A", "GigabitEthernet0/1"),
                               ("B", "GigabitEthernet0/2"))] |}) as Htopo
    by (vm_compute; reflexivity).
  apply (X11_links_rendered_in_order _ _ _ _ _ Htopo).
Defined.

(** ** When the diff is empty *)

Section DiffMore.

Lemma filter_nil_iff {A : Type} (P : A → Prop) `{!∀ x, Decision (P x)}
    (l : list A) :
  filter P l = [] ↔ ∀ x, x ∈ l → ¬ P x.
Proof.
  split.
  - intros Hnil x Hx HP.
    assert (x ∈ filter P l) as Hin by by apply list_elem_of_filter.
    rewrite Hnil in Hin. by apply elem_of_nil in Hin.
  - intros Hall. apply elem_of_nil_inv. intros x [HP Hx]%list_elem_of_filter.
    by apply (Hall x).
Qed.

Lemma node_filter_nil (other names : list string) :
  filter (λ n, n ∉ other) names = [] ↔ ∀ n, n ∈ names → n ∈ other.
Proof.
  rewrite filter_nil_iff. split; intros H n Hn.
  - by apply dec_stable, H.
  - intros Hnot. by apply Hnot, H.
Qed.

Lemma link_filter_nil (other ls : list RawLink) :
  filter (λ l, (l ∉ other) ∧ (prod_swap l ∉ other)) ls = []
  ↔ ∀ l, l ∈ ls → has_link other l.
Proof.
  rewrite filter_nil_iff. unfold has_link. split; intros H l Hl.
  - specialize (H l Hl).
    destruct (decide (l ∈ other)); [by left|].
    destruct (decide (prod_swap l ∈ other)); [by right|]. by destruct H.
  - intros [H1 H2]. by destruct (H l Hl).
Qed.

Lemma has_link_both_ways (ls ls' : list RawLink) :
  ((∀ l, l ∈ ls → has_link ls' l) ∧ (∀ l, l ∈ ls' → has_link ls l))
  ↔ ∀ l, has_link ls l ↔ has_link ls' l.
Proof.
  split.
  - intros [H1 H2] l. split.
    + intros [Hl|Hl]; [by apply H1|]. apply has_link_swap. by apply H1.
    + intros [Hl|Hl]; [by apply H2|]. apply has_link_swap. by apply H2.
  - intros H. split; intros l Hl; apply H; by left.
Qed.

Lemma diff_self_empty (t : Topology) :
  get_topology_diff t t
  = ({| added := []; deleted := [] |}, {| added := []; deleted := [] |}).
Proof.
  unfold get_topology_diff.
  assert (filter (λ n, n ∉ Node.name <$> nodes t) (Node.name <$> nodes t) = [])
    as -> by by apply node_filter_nil.
  assert (filter (λ l, (l ∉ link_key <$> links t)
                       ∧ (prod_swap l ∉ link_key <$> links t))
                 (link_key <$> links t) = []) as ->; [|done].
  apply link_filter_nil. intros l Hl. by left.
Qed.

End DiffMore.

(** X12: [get_topology_diff] reports nothing (its four lists are empty)
    exactly when the two snapshots have the same set of node names and the
    same set of links read as unordered endpoint pairs; ids, models, icons,
    order and repetitions play no part. *)
Theorem X12_diff_empty_iff_same_graph (previous current : Topology) :
  let names (t : Topology) := Node.name <$> nodes t in
  let keys (t : Topology) := link_key <$> links t in
  let diff := get_topology_diff previous current in
  (added diff.1 = [] ∧ deleted diff.1 = []
   ∧ added diff.2 = [] ∧ deleted diff.2 = [])
  ↔ (∀ n, n ∈ names previous ↔ n ∈ names current)
    ∧ (∀ l, has_link (keys previous) l ↔ has_link (keys current) l).
Proof.
  intros names keys diff. subst diff. unfold get_topology_diff.
  cbn [fst snd added deleted].
  fold (names previous) (names current) (keys previous) (keys current).
  rewrite !node_filter_nil, !link_filter_nil.
  rewrite <- has_link_both_ways. split.
  - intros (H1 & H2 & H3 & H4). split; [|done].
    intros n. split; [apply H2|apply H1].
  - intros (H1 & H2 & H3). split_and!; [| |done|done]; intros n; apply H1.
Qed.

(** ** The console report *)

Section Report.

Lemma truthy_false {A : Type} (l : list A) : truthy l = false ↔ l = [].
Proof. by destruct l. Qed.

Lemma report_block_length {A : Type} bar_up title bar_down
    (line : A → string) (entries : list A) :
  length (report_block bar_up title bar_down line entries)
  = block_size entries.
Proof.
  unfold report_block, block_size. destruct (truthy entries); [|done].
  rewrite length_app, length_fmap. done.
Qed.

Lemma report_block_elem {A : Type} bar_up title bar_down
    (line : A → string) (entries : list A) x :
  x ∈ entries → line x ∈ report_block bar_up title bar_down line entries.
Proof.
  intros Hx. unfold report_block. destruct entries as [|y entries].
  - by apply elem_of_nil in Hx.
  - cbn [truthy]. apply elem_of_app. right. by apply list_elem_of_fmap_2.
Qed.

Lemma block_size_pos {A : Type} (entries : list A) :
  entries ≠ [] → 0 < block_size entries.
Proof. destruct entries; [done|]. intros _. unfold block_size. simpl. lia. Qed.

(** The two shapes of the report. *)
Lemma print_diff_cases (diff_nodes : Diff string) (diff_links : Diff RawLink) :
  (added diff_nodes = [] ∧ deleted diff_nodes = []
   ∧ added diff_links = [] ∧ deleted diff_links = []
   ∧ print_diff (diff_nodes, diff_links)
     = ["Изменений в топологии не обнаружено."])
  ∨ (¬ (added diff_nodes = [] ∧ deleted diff_nodes = []
        ∧ added diff_links = [] ∧ deleted diff_links = [])
     ∧ ∃ b1 b2 b3 b4,
         print_diff (diff_nodes, diff_links)
         = ["Обнаружены изменения в топологии:"]
             ++ b1 ++ b2 ++ b3 ++ b4 ++ [EmptyString]
         ∧ length b1 = block_size (added diff_nodes)
         ∧ length b2 = block_size (deleted diff_nodes)
         ∧ length b3 = block_size (added diff_links)
         ∧ length b4 = block_size (deleted diff_links)
         ∧ (∀ n, n ∈ added diff_nodes → node_line n ∈ b1)
         ∧ (∀ n, n ∈ deleted diff_nodes → node_line n ∈ b2)
         ∧ (∀ l, l ∈ added diff_links → link_line l ∈ b3)
         ∧ (∀ l, l ∈ deleted diff_links → link_line l ∈ b4)).
Proof.
  unfold print_diff.
  destruct (truthy (added diff_nodes) || truthy (deleted diff_nodes)
            || truthy (added diff_links) || truthy (deleted diff_links))
    eqn:Hany; cbn [negb].
  - right. split.
    + intros (H1 & H2 & H3 & H4). by rewrite H1, H2, H3, H4 in Hany.
    + eexists _, _, _, _. split; [reflexivity|].
      rewrite !report_block_length.
      split_and!; try done; intros ??; by apply report_block_elem.
  - left. apply orb_false_iff in Hany as [Hany H4].
    apply orb_false_iff in Hany as [Hany H3].
    apply orb_false_iff in Hany as [H1 H2].
    by rewrite !truthy_false in *.
Qed.

End Report.

(** X13: [print_diff] prints the single no-change line exactly when all four
    lists of the diff are empty.  Every added or deleted node has its
    [node_line] printed and every added or deleted link its [link_line].
    The number of lines is 1 for an empty diff and otherwise 2 (header and
    closing empty line) plus, for each non-empty list, 4 and its length. *)
Theorem X13_print_diff_report
    (diff_nodes : Diff string) (diff_links : Diff RawLink) :
  let out := print_diff (diff_nodes, diff_links) in
  let body :=
    block_size (added diff_nodes) + block_size (deleted diff_nodes)
    + block_size (added diff_links) + block_size (deleted diff_links) in
  (out = ["Изменений в топологии не обнаружено."]
   ↔ added diff_nodes = [] ∧ deleted diff_nodes = []
     ∧ added diff_links = [] ∧ deleted diff_links = [])
  ∧ (∀ n, n ∈ added diff_nodes ∨ n ∈ deleted diff_nodes → node_line n ∈ out)
  ∧ (∀ l, l ∈ added diff_links ∨ l ∈ deleted diff_links → link_line l ∈ out)
  ∧ length out = match body with 0 => 1 | S _ => 2 + body end.
Proof.
  intros out body. subst out body.
  destruct (print_diff_cases diff_nodes diff_links)
    as [(H1 & H2 & H3 & H4 & ->)
       |(Hsome & b1 & b2 & b3 & b4 & -> & L1 & L2 & L3 & L4
         & E1 & E2 & E3 & E4)].
  - rewrite H1, H2, H3, H4. split_and!; [done| | |done].
    + intros n [?%elem_of_nil|?%elem_of_nil]; done.
    + intros l [?%elem_of_nil|?%elem_of_nil]; done.
  - split_and!.
    + split; [|done]. intros Hout. apply (f_equal length) in Hout.
      rewrite !length_app in Hout. simpl in Hout. lia.
    + intros n [Hn|Hn]; rewrite !elem_of_app; auto.
    + intros l [Hl|Hl]; rewrite !elem_of_app; auto 10.
    + rewrite !length_app, L1, L2, L3, L4. simpl.
      assert (0 < block_size (added diff_nodes)
                  + block_size (deleted diff_nodes)
                  + block_size (added diff_links)
                  + block_size (deleted diff_links)) as Hpos.
      { destruct (added diff_nodes) eqn:?, (deleted diff_nodes) eqn:?,
          (added diff_links) eqn:?, (deleted diff_links) eqn:?;
          try (by destruct Hsome); unfold block_size; simpl; lia. }
      remember (block_size (added diff_nodes)
                + block_size (deleted diff_nodes)
                + block_size (added diff_links)
                + block_size (deleted diff_links)) as body eqn:Hbody.
      destruct body; lia.
Qed.

(** ** The whole run *)

Section Run.

Variable enumerate : gset string → list string.
Implicit Types (job : list (string * PollOutcome)) (cached : option Topology).

Lemma run_Ok job cached topo out :
  good_luck_have_fun enumerate job cached = Ok (topo, out) →
  ∃ hosts ls caps,
    extract_lldp_details (normalize_result job).1 = Ok (hosts, ls, caps)
    ∧ generate_topology_json (enumerate hosts) ls caps (normalize_result job).2
      = Ok topo
    ∧ out = match cached with
            | Some c => print_diff (get_topology_diff c topo)
            | None => []
            end ++ ["Для просмотра топологии откройте файл main.html"].
Proof.
  unfold good_luck_have_fun.
  destruct (normalize_result job) as [lldp facts]. cbn [fst snd].
  destruct (extract_lldp_details lldp) as [[[hosts ls] caps]|e]; [|done].
  cbn [mbind result_bind].
  destruct (generate_topology_json (enumerate hosts) ls caps facts)
    as [t|e] eqn:Hgen; [|done].
  cbn [mbind result_bind mret result_ret]. intros [= <- <-].
  by exists hosts, ls, caps.
Qed.

Lemma run_of_parts job cached hosts ls caps topo :
  extract_lldp_details (normalize_result job).1 = Ok (hosts, ls, caps) →
  generate_topology_json (enumerate hosts) ls caps (normalize_result job).2
  = Ok topo →
  good_luck_have_fun enumerate job cached
  = Ok (topo,
        match cached with
        | Some c => print_diff (get_topology_diff c topo)
        | None => []
        end ++ ["Для просмотра топологии откройте файл main.html"]).
Proof.
  unfold good_luck_have_fun.
  destruct (normalize_result job) as [lldp facts]. cbn [fst snd].
  intros -> . cbn [mbind result_bind]. by intros ->.
Qed.

Lemma run_Err job cached e :
  good_luck_have_fun enumerate job cached = Err e →
  extract_lldp_details (normalize_result job).1 = Err e
  ∨ ∃ hosts ls caps,
      extract_lldp_details (normalize_result job).1 = Ok (hosts, ls, caps)
      ∧ generate_topology_json (enumerate hosts) ls caps
          (normalize_result job).2 = Err e.
Proof.
  unfold good_luck_have_fun.
  destruct (normalize_result job) as [lldp facts]. cbn [fst snd].
  destruct (extract_lldp_details lldp) as [[[hosts ls] caps]|e'];
    [|intros [= <-]; by left].
  cbn [mbind result_bind].
  destruct (generate_topology_json (enumerate hosts) ls caps facts)
    as [t|e'] eqn:Hgen; [done|].
  intros [= <-]. right. by exists hosts, ls, caps.
Qed.

Hypothesis enumerate_perm : ∀ s, enumerate s ≡ₚ elements s.

(** The builder accepts what the extractor returns. *)
Lemma generate_after_extract lldp hosts ls caps facts :
  extract_lldp_details lldp = Ok (hosts, ls, caps) →
  ∃ topo, generate_topology_json (enumerate hosts) ls caps facts = Ok topo.
Proof.
  intros Hex. apply generate_topology_json_total.
  pose proof (inv_ends_in_hosts _ _ (extract_result_inv _ _ _ _ Hex)) as Hends.
  intros raw [H1 H2]%Hends. cbn in H1, H2.
  by rewrite !enumerate_perm, !elem_of_elements.
Qed.

End Run.

(** X14: a run raises only [IndexError], and it returns exactly when every
    neighbor record the extractor runs over in the normalized LLDP data has a
    non-empty capability list: the host-id lookup of the builder cannot fail
    on what the extractor hands over. *)
Theorem X14_run_raises_only_index_error
    (enumerate : gset string → list string)
    (job : Dict.t PollOutcome) (cached : option Topology) :
  (∀ s, enumerate s ≡ₚ elements s) →
  ((∃ r, good_luck_have_fun enumerate job cached = Ok r)
   ↔ ∀ host iface nb,
       reported (normalize_result job).1 host iface nb →
       remote_system_enable_capab nb ≠ [])
  ∧ ∀ e, good_luck_have_fun enumerate job cached = Err e → e = IndexError.
Proof.
  intros Hperm. split; [split|].
  - intros [[topo out] (hosts & ls & caps & Hex & _)%run_Ok] host iface nb
      Hrep Hcap.
    destruct (extract_visits _ _ _ _ _ Hex Hrep) as (s1 & s2 & Hstep).
    apply neighbor_step_Ok in Hstep as [[Hname _]|(_ & cap & Hhead & _)].
    + by destruct Hrep as (_ & ? & _).
    + by rewrite Hcap in Hhead.
  - intros [[[hosts ls] caps] Hex]%extract_total.
    destruct (generate_after_extract enumerate Hperm _ _ _ _
                (normalize_result job).2 Hex) as [topo Hgen].
    eexists. by apply (run_of_parts enumerate job cached hosts ls caps topo).
  - intros e [[-> _]%extract_Err|(hosts & ls & caps & Hex & Hgen)]%run_Err;
      [done|].
    destruct (generate_after_extract enumerate Hperm _ _ _ _
                (normalize_result job).2 Hex) as [topo Hgen'].
    congruence.
Qed.

Lemma X14_run_raises_only_index_error_witness :
  ∃ r, good_luck_have_fun elements [("10.0.0.2", Failed)] None = Ok r.
Proof.
  assert (∀ s : gset string, elements s ≡ₚ elements s) as Hperm
    by (intros s; reflexivity).
  apply (proj1 (X14_run_raises_only_index_error
                  elements [("10.0.0.2", Failed)] None Hperm)).
  intros host iface nb (_ & _ & d & nbs & Hin & _).
  apply list_elem_of_singleton in Hin. discriminate Hin.
Defined.

(** X15: the node names of the topology a run produces are, without
    repetition, exactly the non-empty identities the poll results are stored
    under together with the system names reported by the neighbor records the
    extractor runs over. *)
Theorem X15_run_node_names
    (enumerate : gset string → list string)
    (job : Dict.t PollOutcome) (cached : option Topology)
    (topo : Topology) (out : list string) :
  (∀ s, enumerate s ≡ₚ elements s) →
  good_luck_have_fun enumerate job cached = Ok (topo, out) →
  NoDup (Node.name <$> nodes topo)
  ∧ ∀ h, h ∈ Node.name <$> nodes topo
         ↔ (h ≠ EmptyString ∧ ∃ it, it ∈ job ∧ stored_key it = h)
           ∨ ∃ host iface nb,
               reported (normalize_result job).1 host iface nb
               ∧ remote_system_name nb = h.
Proof.
  intros Hperm (hosts & ls & caps & Hex & Hgen & _)%run_Ok.
  apply generate_topology_json_Ok in Hgen as (Hnodes & _).
  rewrite Hnodes, zip_nodes_names.
  split; [rewrite Hperm; apply NoDup_elements|].
  intros h. rewrite Hperm, elem_of_elements.
  apply extract_folds in Hex as (_ & _ & ->).
  rewrite elem_of_union, !elem_of_list_to_set. unfold host_keys.
  rewrite list_elem_of_filter, normalize_result_key_iff.
  rewrite list_elem_of_fmap. split.
  - intros [?|([[host iface] nb] & -> & Hr)]; [by left|].
    right. exists host, iface, nb. split; [|done].
    by apply elem_of_neighbor_records.
  - intros [?|(host & iface & nb & Hr & <-)]; [by left|].
    right. exists (host, iface, nb). split; [done|].
    by apply elem_of_neighbor_records.
Qed.

Lemma X15_run_node_names_witness :
  NoDup (Node.name <$> [make_node ∅ [("10.0.0.2", FactsEmptyList)]
                                   0 "10.0.0.2"]).
Proof.
  assert (good_luck_have_fun elements [("10.0.0.2", Failed)] None
          = Ok ({| nodes := [make_node ∅ [("10.0.0.2", FactsEmptyList)]
                                       0 "10.0.0.2"];
                   links := [] |},
                ["Для просмотра топологии откройте файл main.html"]))
    as Hrun by (vm_compute; reflexivity).
  assert (∀ s : gset string, elements s ≡ₚ elements s) as Hperm
    by (intros s; reflexivity).
  destruct (X15_run_node_names elements _ _ _ _ Hperm Hrun) as [Hnd _].
  exact Hnd.
Defined.

(** X16: a device whose collection failed, whose inventory name is not empty
    and is not used as identity by a later poll result, is a node of the
    topology under its inventory name with model and serial number ['n/a'],
    and no link has it as source device. *)
Theorem X16_failed_device_is_a_node
    (enumerate : gset string → list string)
    (job pre post : Dict.t PollOutcome) (device : string)
    (cached : option Topology) (topo : Topology) (out : list string) :
  (∀ s, enumerate s ≡ₚ elements s) →
  good_luck_have_fun enumerate job cached = Ok (topo, out) →
  job = pre ++ (device, Failed) :: post →
  device ≠ EmptyString →
  (∀ it, it ∈ post → stored_key it ≠ device) →
  (∃ n, n ∈ nodes topo
        ∧ Node.name n = device
        ∧ Node.model n = "n/a" ∧ Node.serial_number n = "n/a")
  ∧ ∀ lk, lk ∈ links topo → Link.srcDevice lk ≠ device.
Proof.
  intros Hperm (hosts & ls & caps & Hex & Hgen & _)%run_Ok Hjob Hdev Hpost.
  destruct (normalize_result_last job pre (device, Failed) post Hjob Hpost)
    as [Hlldp Hfacts].
  change (stored_key (device, Failed)) with device in Hlldp, Hfacts.
  cbn [snd stored_lldp stored_facts] in Hlldp, Hfacts.
  destruct (normalize_fold_keys job [] []) as (_ & Hnd & _);
    [done|apply NoDup_nil_2|].
  fold (normalize_result job) in Hnd.
  pose proof (extract_result_inv _ _ _ _ Hex) as Hinv.
  pose proof Hex as (_ & _ & Hhosts)%extract_folds.
  apply generate_topology_json_Ok in Hgen as (Hnodes & _ & m & Hm & Hall).
  split.
  - assert (device ∈ enumerate hosts) as [j Hj]%list_elem_of_lookup_1.
    { rewrite Hperm, elem_of_elements, Hhosts.
      apply elem_of_union_l, elem_of_list_to_set. unfold host_keys.
      apply list_elem_of_filter. split; [done|].
      apply list_elem_of_fmap. exists (device, LldpEmptyList).
      split; [done|]. by apply dict_get_Some_elem. }
    exists (make_node caps (normalize_result job).2 (0 + j) device).
    split_and!.
    + rewrite Hnodes. eapply list_elem_of_lookup_2.
      by apply zip_nodes_lookup.
    + apply make_node_name.
    + pose proof (make_node_facts caps (normalize_result job).2 (0 + j) device)
        as Hf. rewrite Hfacts in Hf. apply Hf.
    + pose proof (make_node_facts caps (normalize_result job).2 (0 + j) device)
        as Hf. rewrite Hfacts in Hf. apply Hf.
  - intros lk [i Hi]%list_elem_of_lookup_1.
    destruct (Forall2_lookup_r _ _ _ _ _ Hall Hi)
      as (raw & Hraw%list_elem_of_lookup_2 & s & t & _ & _ & ->).
    cbn [Link.srcDevice make_link].
    destruct (inv_links_from _ _ Hinv raw Hraw)
      as (host & iface & nb & (_ & _ & d & nbs & Hitem & _) & ->).
    cbn [candidate fst]. intros ->.
    apply (dict_elem_get _ _ _ Hnd) in Hitem. congruence.
Qed.

Lemma X16_failed_device_is_a_node_witness :
  ∃ n, n ∈ [make_node ∅ [("10.0.0.2", FactsEmptyList)] 0 "10.0.0.2"]
       ∧ Node.name n = "10.0.0.2"
       ∧ Node.model n = "n/a" ∧ Node.serial_number n = "n/a".
Proof.
  assert (∀ s : gset string, elements s ≡ₚ elements s) as Hperm
    by (intros s; reflexivity).
  assert (∀ it : string * PollOutcome, it ∈ [] → stored_key it ≠ "10.0.0.2")
    as Hpost by (intros it Hit; inversion Hit).
  assert ("10.0.0.2" ≠ EmptyString) as Hdev by (intros Heq; discriminate Heq).
  assert (good_luck_have_fun elements [("10.0.0.2", Failed)] None
          = Ok ({| nodes := [make_node ∅ [("10.0.0.2", FactsEmptyList)]
                                       0 "10.0.0.2"];
                   links := [] |},
                ["Для просмотра топологии откройте файл main.html"]))
    as Hrun by (vm_compute; reflexivity).
  destruct (X16_failed_device_is_a_node elements
              [("10.0.0.2", Failed)] [] [] "10.0.0.2" None _ _
              Hperm Hrun eq_refl Hdev Hpost) as [Hnode _].
  exact Hnode.
Defined.

(** X17: the topology of a run does not depend on the cache.  Without a cache
    the run prints only the closing line; with the topology of the same poll
    results as cache it prints the no-change line followed by the closing
    line. *)
Theorem X17_rerun_reports_no_change
    (enumerate : gset string → list string)
    (job : Dict.t PollOutcome) (cached : option Topology)
    (topo : Topology) (out : list string) :
  good_luck_have_fun enumerate job cached = Ok (topo, out) →
  good_luck_have_fun enumerate job None
  = Ok (topo, ["Для просмотра топологии откройте файл main.html"])
  ∧ good_luck_have_fun enumerate job (Some topo)
    = Ok (topo, ["Изменений в топологии не обнаружено.";
                 "Для просмотра топологии откройте файл main.html"]).
Proof.
  intros (hosts & ls & caps & Hex & Hgen & _)%run_Ok. split.
  - by rewrite (run_of_parts enumerate job None hosts ls caps topo).
  - rewrite (run_of_parts enumerate job (Some topo) hosts ls caps topo)
      by done.
    by rewrite diff_self_empty.
Qed.

Lemma X17_rerun_reports_no_change_witness :
  good_luck_have_fun elements [("10.0.0.2", Failed)]
    (Some {| nodes := [make_node ∅ [("10.0.0.2", FactsEmptyList)]
                                 0 "10.0.0.2"];
             links := [] |})
  = Ok ({| nodes := [make_node ∅ [("10.0.0.2", FactsEmptyList)]
                               0 "10.0.0.2"];
           links := [] |},
        ["Изменений в топологии не обнаружено.";
         "Для просмотра топологии откройте файл main.html"]).
Proof.
  assert (good_luck_have_fun elements [("10.0.0.2", Failed)] None
          = Ok ({| nodes := [make_node ∅ [("10.0.0.2", FactsEmptyList)]
                                       0 "10.0.0.2"];
                   links := [] |},
                ["Для просмотра топологии откройте файл main.html"]))
    as Hrun by (vm_compute; reflexivity).
  destruct (X17_rerun_reports_no_change elements _ _ _ _ Hrun) as [_ Hagain].
  exact Hagain.
Defined.
